(** * SafeChat: presence tracking and room membership of the socket server

    A shallow embedding of the socket layer of [server/server.js] and of the
    JSON-file store [server/db/database.js], followed by the properties of
    the presence count table, of the emitted [online_users] / [room_users]
    payloads and of the ownership checks on messages. *)

From Stdlib Require Import String Ascii ZArith List Bool Lia DecimalString.
Import ListNotations.

Local Open Scope string_scope.
Local Open Scope Z_scope.

(* ===================================================================== *)
(** ** JavaScript values                                                  *)
(* ===================================================================== *)

Module JS.

(** The values that travel in socket payloads and sit in the fields of the
    stored records.  Numbers are the integers (the ones [String] prints
    positionally); arrays and nested objects are not inspected by any
    handler below and are left out. *)
Inductive value : Type :=
| VUndef
| VNull
| VBool (b : bool)
| VNum (n : Z)
| VStr (s : string).

(** [a === b] *)
Definition strict_eq (a b : value) : bool :=
  match a, b with
  | VUndef, VUndef => true
  | VNull, VNull => true
  | VBool x, VBool y => Bool.eqb x y
  | VNum x, VNum y => Z.eqb x y
  | VStr x, VStr y => String.eqb x y
  | _, _ => false
  end.

(** Truthiness, as tested by [if (v)], [v ? a : b] and [Boolean(v)]. *)
Definition truthy (v : value) : bool :=
  match v with
  | VUndef | VNull => false
  | VBool b => b
  | VNum n => negb (Z.eqb n 0)
  | VStr s => negb (String.eqb s "")
  end.

(** [String(v)] *)
Definition String_ (v : value) : string :=
  match v with
  | VUndef => "undefined"
  | VNull => "null"
  | VBool true => "true"
  | VBool false => "false"
  | VNum n => NilZero.string_of_int (Z.to_int n)
  | VStr s => s
  end.

(** A plain object: its own enumerable properties in insertion order. *)
Definition obj : Type := list (string * value).

(** [o[k]], [undefined] when the property is absent. *)
Fixpoint get_field (o : obj) (k : string) : value :=
  match o with
  | [] => VUndef
  | (k', v) :: rest => if String.eqb k' k then v else get_field rest k
  end.

Definition has_key (o : obj) (k : string) : bool :=
  existsb (fun kv => String.eqb (fst kv) k) o.

(** [const { k, ...rest } = o]: the object without its property [k]. *)
Definition omit (k : string) (o : obj) : obj :=
  filter (fun kv => negb (String.eqb (fst kv) k)) o.

(** [o[k] = v] on a fresh copy: an existing property keeps its place, a new
    one goes last. *)
Fixpoint set_field (k : string) (v : value) (o : obj) : obj :=
  match o with
  | [] => [(k, v)]
  | (k', v') :: rest =>
      if String.eqb k' k then (k, v) :: rest
      else (k', v') :: set_field k v rest
  end.

(** [{ ...a, ...b }] *)
Definition spread (a b : obj) : obj :=
  fold_left (fun acc kv => set_field (fst kv) (snd kv) acc) b a.

(** [xs.findIndex(p)], [-1] when no element satisfies [p]. *)
Fixpoint findIndex {A : Type} (p : A -> bool) (xs : list A) : Z :=
  match xs with
  | [] => -1
  | x :: rest =>
      if p x then 0
      else let i := findIndex p rest in
           if i <? 0 then -1 else i + 1
  end.

(** [xs.filter((x, index, self) => p(x, index, self))] *)
Fixpoint filteri_from {A : Type} (p : A -> Z -> list A -> bool)
         (self : list A) (index : Z) (xs : list A) : list A :=
  match xs with
  | [] => []
  | x :: rest =>
      if p x index self then x :: filteri_from p self (index + 1) rest
      else filteri_from p self (index + 1) rest
  end.

Definition filteri {A : Type} (p : A -> Z -> list A -> bool) (xs : list A)
  : list A :=
  filteri_from p xs 0 xs.

(** [xs.filter(Boolean)] on a list of objects-or-[null]. *)
Fixpoint filter_Boolean {A : Type} (xs : list (option A)) : list A :=
  match xs with
  | [] => []
  | Some x :: rest => x :: filter_Boolean rest
  | None :: rest => filter_Boolean rest
  end.

End JS.
Import JS.

(* ===================================================================== *)
(** ** [new Map()] with string keys                                       *)
(* ===================================================================== *)

Module JSMap.

(** A [Map] iterates in insertion order, so it is kept as the list of its
    entries; [set] on an existing key keeps the entry's place. *)
Definition t : Type := list (string * Z).

Definition empty : t := [].

Fixpoint get (k : string) (m : t) : option Z :=
  match m with
  | [] => None
  | (k', c) :: rest => if String.eqb k' k then Some c else get k rest
  end.

Fixpoint set (k : string) (c : Z) (m : t) : t :=
  match m with
  | [] => [(k, c)]
  | (k', c') :: rest =>
      if String.eqb k' k then (k, c) :: rest
      else (k', c') :: set k c rest
  end.

Definition delete (k : string) (m : t) : t :=
  filter (fun e => negb (String.eqb (fst e) k)) m.

Definition entries (m : t) : list (string * Z) := m.

Definition keys (m : t) : list string := map fst m.

End JSMap.

(* ===================================================================== *)
(** ** The JSON-file store ([class JSONDB])                               *)
(* ===================================================================== *)

Module JSONDB.

(** The contents of one JSON file: the array [read()] returns, which is
    what [write(data)] stored last. *)
Definition t : Type := list obj.

(** [Object.keys(query).every(key => item[key] === query[key])] *)
Definition matches (query item : obj) : bool :=
  forallb (fun kv => strict_eq (get_field item (fst kv)) (snd kv)) query.

(** [findOne(query)] *)
Definition findOne (query : obj) (data : t) : option obj :=
  find (matches query) data.

(** [data[index] = { ...data[index], ...updates }] *)
Fixpoint update_at (index : Z) (updates : obj) (data : t) : t :=
  match data with
  | [] => []
  | item :: rest =>
      if index =? 0 then spread item updates :: rest
      else item :: update_at (index - 1) updates rest
  end.

(** [update(id, updates)]: the file after the call. *)
Definition update (id : value) (updates : obj) (data : t) : t :=
  let index := findIndex (fun item => strict_eq (get_field item "_id") id) data in
  if negb (index =? -1) then update_at index updates data else data.

(** [delete(id)]: the file after the call (it is rewritten only when an
    item went away, and is the filtered array in both cases). *)
Definition delete (id : value) (data : t) : t :=
  filter (fun item => negb (strict_eq (get_field item "_id") id)) data.

End JSONDB.

(* ===================================================================== *)
(** ** Server state                                                       *)
(* ===================================================================== *)

(** One live connection: [socket.id], the three properties the handlers keep
    in [socket.data], and [socket.rooms] (a [Set], in insertion order; the
    transport puts the socket in the room of its own id). *)
Record Socket : Type := mkSocket {
  id : string;
  data_user : option obj;
  data_userId : option string;
  data_currentChannel : value;
  rooms : list value
}.

Definition new_socket (sid : string) : Socket :=
  mkSocket sid None None VUndef [VStr sid].

Inductive Target : Type :=
| ToSocket (sid : string)      (* socket.emit(...) *)
| ToAll                        (* io.emit(...) *)
| ToRoom (room : value).       (* io.to(room).emit(...) *)

Inductive Payload : Type :=
| PUsers (users : list obj)
| PValue (v : value)
| PMessage (msg : option obj).

Record Emission : Type := mkEmission {
  target : Target;
  name : string;
  payload : Payload
}.

(** Everything the handlers read and write: the two JSON files, the
    process-wide [presenceCounts], the live sockets in connection order, the
    channels of the pending grace timers of [disconnect] (oldest first), and
    the events emitted so far (oldest first). *)
Record World : Type := mkWorld {
  db_users : JSONDB.t;
  db_messages : JSONDB.t;
  presenceCounts : JSMap.t;
  sockets : list Socket;
  timers : list value;
  outbox : list Emission
}.

Definition init_world (users messages : JSONDB.t) : World :=
  mkWorld users messages JSMap.empty [] [] [].

Definition with_users (f : JSONDB.t -> JSONDB.t) (w : World) : World :=
  mkWorld (f (db_users w)) (db_messages w) (presenceCounts w) (sockets w)
          (timers w) (outbox w).

Definition with_messages (f : JSONDB.t -> JSONDB.t) (w : World) : World :=
  mkWorld (db_users w) (f (db_messages w)) (presenceCounts w) (sockets w)
          (timers w) (outbox w).

Definition with_presence (f : JSMap.t -> JSMap.t) (w : World) : World :=
  mkWorld (db_users w) (db_messages w) (f (presenceCounts w)) (sockets w)
          (timers w) (outbox w).

Definition with_sockets (f : list Socket -> list Socket) (w : World) : World :=
  mkWorld (db_users w) (db_messages w) (presenceCounts w) (f (sockets w))
          (timers w) (outbox w).

Definition with_timers (f : list value -> list value) (w : World) : World :=
  mkWorld (db_users w) (db_messages w) (presenceCounts w) (sockets w)
          (f (timers w)) (outbox w).

Definition with_outbox (f : list Emission -> list Emission) (w : World) : World :=
  mkWorld (db_users w) (db_messages w) (presenceCounts w) (sockets w)
          (timers w) (f (outbox w)).

Definition find_socket (sid : string) (w : World) : option Socket :=
  find (fun s => String.eqb (id s) sid) (sockets w).

(** Apply [f] to the socket whose id is [sid]. *)
Definition modify_socket (sid : string) (f : Socket -> Socket)
  : list Socket -> list Socket :=
  map (fun s => if String.eqb (id s) sid then f s else s).

(* ===================================================================== *)
(** ** Handlers as state transformers                                     *)
(* ===================================================================== *)

Definition M (A : Type) : Type := World -> A * World.

Definition ret {A : Type} (a : A) : M A := fun w => (a, w).

Definition bind {A B : Type} (c : M A) (k : A -> M B) : M B :=
  fun w => k (fst (c w)) (snd (c w)).

Declare Scope handler_scope.
Delimit Scope handler_scope with handler.
Notation "x <- c ;; k" := (bind c (fun x => k))
  (at level 100, c at next level, right associativity) : handler_scope.
Notation "c ;; k" := (bind c (fun _ => k))
  (at level 100, right associativity) : handler_scope.
Local Open Scope handler_scope.

Definition exec {A : Type} (c : M A) (w : World) : World := snd (c w).

(** [for (const x of xs) { body(x) }] *)
Fixpoint for_each {A : Type} (xs : list A) (body : A -> M unit) : M unit :=
  match xs with
  | [] => ret tt
  | x :: rest => body x ;; for_each rest body
  end.

Definition when (b : bool) (c : M unit) : M unit := if b then c else ret tt.

(** *** The store *)

Definition db_users_findOne (query : obj) : M (option obj) :=
  fun w => (JSONDB.findOne query (db_users w), w).

Definition db_users_update (uid : value) (updates : obj) : M unit :=
  fun w => (tt, with_users (JSONDB.update uid updates) w).

Definition db_messages_findOne (query : obj) : M (option obj) :=
  fun w => (JSONDB.findOne query (db_messages w), w).

Definition db_messages_update (mid : value) (updates : obj) : M unit :=
  fun w => (tt, with_messages (JSONDB.update mid updates) w).

Definition db_messages_delete (mid : value) : M unit :=
  fun w => (tt, with_messages (JSONDB.delete mid) w).

(** *** [presenceCounts] *)

Definition presenceCounts_get (k : string) : M (option Z) :=
  fun w => (JSMap.get k (presenceCounts w), w).

Definition presenceCounts_set (k : string) (c : Z) : M unit :=
  fun w => (tt, with_presence (JSMap.set k c) w).

Definition presenceCounts_delete (k : string) : M unit :=
  fun w => (tt, with_presence (JSMap.delete k) w).

(** [presenceCounts.get(k) || 0] *)
Definition or_zero (c : option Z) : Z :=
  match c with
  | Some c => if c =? 0 then 0 else c
  | None => 0
  end.

(** *** The transport *)

(** The socket object of the running handler. *)
Definition this_socket (sid : string) : M Socket :=
  fun w => (match find_socket sid w with
            | Some s => s
            | None => new_socket sid
            end, w).

Definition set_data_user (sid : string) (u : obj) : M unit :=
  fun w => (tt, with_sockets (modify_socket sid (fun s =>
    mkSocket (id s) (Some u) (data_userId s) (data_currentChannel s) (rooms s))) w).

Definition set_data_userId (sid : string) (u : string) : M unit :=
  fun w => (tt, with_sockets (modify_socket sid (fun s =>
    mkSocket (id s) (data_user s) (Some u) (data_currentChannel s) (rooms s))) w).

Definition set_data_currentChannel (sid : string) (c : value) : M unit :=
  fun w => (tt, with_sockets (modify_socket sid (fun s =>
    mkSocket (id s) (data_user s) (data_userId s) c (rooms s))) w).

Definition in_room (room : value) (s : Socket) : bool :=
  existsb (strict_eq room) (rooms s).

(** [socket.leave(room)] *)
Definition socket_leave (sid : string) (room : value) : M unit :=
  fun w => (tt, with_sockets (modify_socket sid (fun s =>
    mkSocket (id s) (data_user s) (data_userId s) (data_currentChannel s)
             (filter (fun r => negb (strict_eq room r)) (rooms s)))) w).

(** [socket.join(room)] *)
Definition socket_join (sid : string) (room : value) : M unit :=
  fun w => (tt, with_sockets (modify_socket sid (fun s =>
    mkSocket (id s) (data_user s) (data_userId s) (data_currentChannel s)
             (if in_room room s then rooms s else (rooms s ++ [room])%list))) w).

(** [io.in(room).fetchSockets()]: the live sockets subscribed to [room],
    listed here in connection order (the adapter lists them in the order
    they entered the room; what is proved of the result holds for every list
    of sockets). *)
Definition fetchSockets (room : value) : M (list Socket) :=
  fun w => (filter (in_room room) (sockets w), w).

Definition emit (t : Target) (ev : string) (p : Payload) : M unit :=
  fun w => (tt, with_outbox (fun o => (o ++ [mkEmission t ev p])%list) w).

(** [setTimeout(resolve, 100)] followed by the rest of the handler, which
    only needs the channel. *)
Definition set_grace_timer (channel : value) : M unit :=
  fun w => (tt, with_timers (fun ts => (ts ++ [channel])%list) w).

(* ===================================================================== *)
(** ** [server.js]: the socket layer                                      *)
(* ===================================================================== *)

(** [function getOnlineUsersPublic()] *)
Definition getOnlineUsersPublic : M (list obj) :=
  fun w =>
    let userIds :=
      map (fun e => String_ (VStr (fst e)))
          (filter (fun e => snd e >? 0) (JSMap.entries (presenceCounts w))) in
    (filter_Boolean
       (map (fun userId =>
               match JSONDB.findOne [("_id", VStr userId)] (db_users w) with
               | None => None
               | Some user => Some (omit "password" user)
               end)
            userIds),
     w).

(** The de-duplication key of [getUniqueUsers]: [String(user._id)]. *)
Definition user_key (user : obj) : string := String_ (get_field user "_id").

(** [function getUniqueUsers(sockets)] *)
Definition getUniqueUsers (sockets : list Socket) : list obj :=
  let users := filter_Boolean (map data_user sockets) in
  let unique :=
    filteri (fun user index self =>
               index =? findIndex (fun t => String.eqb (user_key t) (user_key user)) self)
            users in
  unique.

(** [socket.data.userId ? String(socket.data.userId) : null]: the user id the
    connection is attached to, as the handlers read it. *)
Definition attached_userId (s : Socket) : option string :=
  match data_userId s with
  | Some u => if negb (String.eqb u "") then Some (String_ (VStr u)) else None
  | None => None
  end.

(** [a !== b] on a string-or-[null] and a string. *)
Definition differs (a : option string) (b : string) : bool :=
  match a with
  | Some a => negb (String.eqb a b)
  | None => true
  end.

(** [io.on('connection', (socket) => { ... })]: the statements run at
    connection time. *)
Definition on_connection (sid : string) : M unit :=
  online <- getOnlineUsersPublic ;;
  emit (ToSocket sid) "online_users" (PUsers online).

(** [socket.on('join', async ({ userId, channelId }) => { ... })] *)
Definition on_join (sid : string) (userId channelId : value) : M unit :=
  user <- db_users_findOne [("_id", userId)] ;;
  match user with
  | None => ret tt
  | Some user =>
      set_data_user sid user ;;
      let nextUserId := String_ userId in
      socket <- this_socket sid ;;
      let prevUserId := attached_userId socket in
      when (differs prevUserId nextUserId) (
        match prevUserId with
        | Some prevUserId =>
            c <- presenceCounts_get prevUserId ;;
            let prevCount := or_zero c - 1 in
            if prevCount <=? 0 then
              presenceCounts_delete prevUserId ;;
              db_users_update (VStr prevUserId) [("status", VStr "offline")]
            else
              presenceCounts_set prevUserId prevCount
        | None => ret tt
        end ;;
        c <- presenceCounts_get nextUserId ;;
        let nextCount := or_zero c + 1 in
        presenceCounts_set nextUserId nextCount ;;
        set_data_userId sid nextUserId ;;
        when (nextCount =? 1)
             (db_users_update (VStr nextUserId) [("status", VStr "online")]) ;;
        online <- getOnlineUsersPublic ;;
        emit ToAll "online_users" (PUsers online)
      ) ;;
      set_data_currentChannel sid channelId ;;
      socket <- this_socket sid ;;
      let rooms := rooms socket in
      for_each rooms (fun room =>
        when (negb (strict_eq room (VStr sid))) (
          socket_leave sid room ;;
          sockets <- fetchSockets room ;;
          let uniqueUsers := getUniqueUsers sockets in
          emit (ToRoom room) "room_users" (PUsers uniqueUsers)
        )) ;;
      when (truthy channelId) (
        socket_join sid channelId ;;
        sockets <- fetchSockets channelId ;;
        let uniqueUsers := getUniqueUsers sockets in
        emit (ToRoom channelId) "room_users" (PUsers uniqueUsers)
      )
  end.

(** [msg && socket.data.user && (socket.data.user._id === msg.userId)] *)
Definition may_modify (msg : option obj) (socket : Socket) : bool :=
  match msg, data_user socket with
  | Some msg, Some user =>
      strict_eq (get_field user "_id") (get_field msg "userId")
  | _, _ => false
  end.

(** [socket.on('delete_message', (msgId) => { ... })] *)
Definition on_delete_message (sid : string) (msgId : value) : M unit :=
  msg <- db_messages_findOne [("_id", msgId)] ;;
  socket <- this_socket sid ;;
  match msg with
  | Some m =>
      when (may_modify msg socket) (
        db_messages_delete msgId ;;
        emit (ToRoom (get_field m "channelId")) "message_deleted" (PValue msgId)
      )
  | None => ret tt
  end.

(** [socket.on('edit_message', ({ msgId, newText }) => { ... })] *)
Definition on_edit_message (sid : string) (msgId newText : value) : M unit :=
  msg <- db_messages_findOne [("_id", msgId)] ;;
  socket <- this_socket sid ;;
  match msg with
  | Some m =>
      when (may_modify msg socket) (
        db_messages_update msgId [("text", newText); ("isEdited", VBool true)] ;;
        updatedMsg <- db_messages_findOne [("_id", msgId)] ;;
        emit (ToRoom (get_field m "channelId")) "message_updated" (PMessage updatedMsg)
      )
  | None => ret tt
  end.

(** [socket.on('disconnect', async () => { ... })] up to the grace delay.
    [socket] is the object the closure still holds; the transport has already
    taken it out of the live sockets and of its rooms. *)
Definition on_disconnect (socket : Socket) : M unit :=
  match attached_userId socket with
  | Some uid =>
      c <- presenceCounts_get uid ;;
      let nextCount := or_zero c - 1 in
      (if nextCount <=? 0 then
         presenceCounts_delete uid ;;
         db_users_update (VStr uid) [("status", VStr "offline")]
       else
         presenceCounts_set uid nextCount) ;;
      online <- getOnlineUsersPublic ;;
      emit ToAll "online_users" (PUsers online)
  | None => ret tt
  end ;;
  when (truthy (data_currentChannel socket))
       (set_grace_timer (data_currentChannel socket)).

(** The rest of the [disconnect] handler, run when its 100 ms timer fires. *)
Definition after_grace (channel : value) : M unit :=
  sockets <- fetchSockets channel ;;
  let uniqueUsers := getUniqueUsers sockets in
  emit (ToRoom channel) "room_users" (PUsers uniqueUsers).

(* ===================================================================== *)
(** ** Events and runs                                                    *)
(* ===================================================================== *)

(** What the single-threaded server processes, one at a time.  A socket
    event carries the properties its handler destructures from the payload
    ([undefined] for a missing one).  [GraceElapsed] is the oldest pending
    grace timer firing.  [StoreWrite] stands for the HTTP routes and the
    socket handlers outside the presence core ([send_message],
    [add_reaction], registration, profile updates), which only rewrite the
    JSON files. *)
Inductive event : Type :=
| Connect (sid : string)
| Join (sid : string) (userId channelId : value)
| DeleteMessage (sid : string) (msgId : value)
| EditMessage (sid : string) (msgId newText : value)
| Disconnect (sid : string)
| GraceElapsed
| StoreWrite (users messages : JSONDB.t).

Definition is_live (sid : string) (w : World) : bool :=
  match find_socket sid w with Some _ => true | None => false end.

Definition remove_socket (sid : string) : list Socket -> list Socket :=
  filter (fun s => negb (String.eqb (id s) sid)).

(** One event.  Socket ids are unique and a handler only runs for a live
    socket, so a [Connect] with a live id and any other event with an id that
    is not live do nothing.  A handler runs to its end within the event.  The
    [join] handler suspends only in its room part (lines 201-216), after it
    has written the presence table, [socket.data.user] and
    [socket.data.userId] in one synchronous stretch, so the presence
    bookkeeping of an event is exactly what the server does; the
    interleavings of the room parts of joins sent in quick succession are not
    modelled: the general properties below concern the presence table and
    the attached user of a connection, which the room part does not touch. *)
Definition step (w : World) (e : event) : World :=
  match e with
  | Connect sid =>
      if is_live sid w then w
      else exec (on_connection sid)
                (with_sockets (fun ss => (ss ++ [new_socket sid])%list) w)
  | Join sid userId channelId =>
      if is_live sid w then exec (on_join sid userId channelId) w else w
  | DeleteMessage sid msgId =>
      if is_live sid w then exec (on_delete_message sid msgId) w else w
  | EditMessage sid msgId newText =>
      if is_live sid w then exec (on_edit_message sid msgId newText) w else w
  | Disconnect sid =>
      match find_socket sid w with
      | Some socket =>
          exec (on_disconnect socket) (with_sockets (remove_socket sid) w)
      | None => w
      end
  | GraceElapsed =>
      match timers w with
      | channel :: rest =>
          exec (after_grace channel) (with_timers (fun _ => rest) w)
      | [] => w
      end
  | StoreWrite users messages =>
      with_messages (fun _ => messages) (with_users (fun _ => users) w)
  end.

Definition run (w : World) (evs : list event) : World := fold_left step evs w.

(** The count the handlers read for a user: [presenceCounts.get(u) || 0]. *)
Definition count_of (w : World) (u : string) : Z :=
  or_zero (JSMap.get u (presenceCounts w)).

(** The blocks of the [join] handler, named so that lemmas can speak about
    them; [on_join_blocks] below shows that [on_join] is their sequence. *)

(** Lines 180-186 and 300-306: one connection fewer for [uid]. *)
Definition table_detach (uid : string) (m : JSMap.t) : JSMap.t :=
  let c := or_zero (JSMap.get uid m) - 1 in
  if c <=? 0 then JSMap.delete uid m else JSMap.set uid c m.

(** Lines 189-190: one connection more for [uid]. *)
Definition table_attach (uid : string) (m : JSMap.t) : JSMap.t :=
  JSMap.set uid (or_zero (JSMap.get uid m) + 1) m.

(** Lines 201-216: leave the current rooms, enter [channelId], and tell each
    of these rooms who is in it. *)
Definition join_rooms_block (sid : string) (channelId : value) : M unit :=
  set_data_currentChannel sid channelId ;;
  socket <- this_socket sid ;;
  let rooms := rooms socket in
  for_each rooms (fun room =>
    when (negb (strict_eq room (VStr sid))) (
      socket_leave sid room ;;
      sockets <- fetchSockets room ;;
      let uniqueUsers := getUniqueUsers sockets in
      emit (ToRoom room) "room_users" (PUsers uniqueUsers)
    )) ;;
  when (truthy channelId) (
    socket_join sid channelId ;;
    sockets <- fetchSockets channelId ;;
    let uniqueUsers := getUniqueUsers sockets in
    emit (ToRoom channelId) "room_users" (PUsers uniqueUsers)
  ).

(** The events a step adds to the outbox. *)
Definition emitted (w : World) (e : event) : list Emission :=
  skipn (length (outbox w)) (outbox (step w e)).

Definition is_online_broadcast (em : Emission) : bool :=
  match target em with
  | ToAll => String.eqb (name em) "online_users"
  | _ => false
  end.

Definition is_room_users (em : Emission) : bool :=
  match target em with
  | ToRoom _ => String.eqb (name em) "room_users"
  | _ => false
  end.

(** The users in a payload ([[]] for the payloads that carry none). *)
Definition payload_users (em : Emission) : list obj :=
  match payload em with
  | PUsers us => us
  | _ => []
  end.

(** Lines 176-197: the presence part of the [join] handler. *)
Definition join_presence_block (sid : string) (userId : value) : M unit :=
  let nextUserId := String_ userId in
  socket <- this_socket sid ;;
  let prevUserId := attached_userId socket in
  when (differs prevUserId nextUserId) (
    match prevUserId with
    | Some prevUserId =>
        c <- presenceCounts_get prevUserId ;;
        let prevCount := or_zero c - 1 in
        if prevCount <=? 0 then
          presenceCounts_delete prevUserId ;;
          db_users_update (VStr prevUserId) [("status", VStr "offline")]
        else
          presenceCounts_set prevUserId prevCount
    | None => ret tt
    end ;;
    c <- presenceCounts_get nextUserId ;;
    let nextCount := or_zero c + 1 in
    presenceCounts_set nextUserId nextCount ;;
    set_data_userId sid nextUserId ;;
    when (nextCount =? 1)
         (db_users_update (VStr nextUserId) [("status", VStr "online")]) ;;
    online <- getOnlineUsersPublic ;;
    emit ToAll "online_users" (PUsers online)
  ).

(* ===================================================================== *)
(** ** The notions the properties are stated with                         *)
(* ===================================================================== *)

(** The worlds the server can be in: an empty presence table and no
    connection at process start, then any sequence of events. *)
Definition reachable_from (users messages : JSONDB.t) (evs : list event) : World :=
  run (init_world users messages) evs.

(** [s] is attached to user [u]. *)
Definition attached_to (u : string) (s : Socket) : bool :=
  match attached_userId s with
  | Some a => String.eqb a u
  | None => false
  end.

Definition b2z (b : bool) : Z := if b then 1 else 0.

(** The number of live connections attached to [u]. *)
Fixpoint attached_count (u : string) (ss : list Socket) : Z :=
  match ss with
  | [] => 0
  | s :: rest => (if attached_to u s then 1 else 0) + attached_count u rest
  end.

(** *** The presence tracker of the specification

    The reference the presence table is compared with.  It is written from
    the specification's words (section 4.1), not from the handlers, and it
    follows the events alone: it never looks at the server's [World].  The
    tracker knows the ids of the user store and, for each connection, the
    user id the connection holds.  A join of a connection that declares a
    stored user id it does not hold is an attach of that id, and a detach of
    the id it held before, if any (a switch of user); a join that declares an
    unknown id, or the id already held, is no operation; a disconnect is a
    detach of the id held. *)
Record Tracker : Type := mkTracker {
  known : list value;
  held : list (string * option string)
}.

Definition spec_init (users : JSONDB.t) : Tracker :=
  mkTracker (map (fun r => get_field r "_id") users) [].

(** The user id a connection holds, if the connection is open. *)
Definition spec_holder (sid : string) (t : Tracker) : option (option string) :=
  option_map snd (find (fun c => String.eqb (fst c) sid) (held t)).

(** The declared user id is the id of a stored record. *)
Definition spec_known (userId : value) (t : Tracker) : bool :=
  existsb (fun v => strict_eq v userId) (known t).

Definition holds (h : option string) (u : string) : bool :=
  match h with
  | Some a => String.eqb a u
  | None => false
  end.

(** The event is an attach of [u]. *)
Definition spec_attach (t : Tracker) (e : event) (u : string) : bool :=
  match e with
  | Join sid userId _ =>
      match spec_holder sid t with
      | Some h =>
          spec_known userId t && negb (holds h (String_ userId))
          && String.eqb (String_ userId) u
      | None => false
      end
  | _ => false
  end.

(** The event is a detach of [u]: a switch away from [u], or a disconnect. *)
Definition spec_detach (t : Tracker) (e : event) (u : string) : bool :=
  match e with
  | Join sid userId _ =>
      match spec_holder sid t with
      | Some h =>
          spec_known userId t && negb (holds h (String_ userId)) && holds h u
      | None => false
      end
  | Disconnect sid =>
      match spec_holder sid t with
      | Some h => holds h u
      | None => false
      end
  | _ => false
  end.

Definition spec_step (t : Tracker) (e : event) : Tracker :=
  match e with
  | Connect sid =>
      match spec_holder sid t with
      | Some _ => t
      | None => mkTracker (known t) (held t ++ [(sid, None)])%list
      end
  | Join sid userId _ =>
      match spec_holder sid t with
      | Some _ =>
          if spec_known userId t then
            mkTracker (known t)
              (map (fun c => if String.eqb (fst c) sid
                             then (fst c, Some (String_ userId)) else c)
                   (held t))
          else t
      | None => t
      end
  | Disconnect sid =>
      mkTracker (known t)
                (filter (fun c => negb (String.eqb (fst c) sid)) (held t))
  | StoreWrite users _ =>
      mkTracker (map (fun r => get_field r "_id") users) (held t)
  | DeleteMessage _ _ | EditMessage _ _ _ | GraceElapsed => t
  end.

(** The attaches and the detaches of [u] among the events, counted by the
    tracker. *)
Fixpoint attaches (t : Tracker) (evs : list event) (u : string) : Z :=
  match evs with
  | [] => 0
  | e :: rest => b2z (spec_attach t e u) + attaches (spec_step t e) rest u
  end.

Fixpoint detaches (t : Tracker) (evs : list event) (u : string) : Z :=
  match evs with
  | [] => 0
  | e :: rest => b2z (spec_detach t e u) + detaches (spec_step t e) rest u
  end.




(** The list [getOnlineUsersPublic()] returns in [w], and membership in it. *)
Definition online_list (w : World) : list obj := fst (getOnlineUsersPublic w).

Definition appears (u : string) (profiles : list obj) : Prop :=
  exists p, In p profiles /\ get_field p "_id" = VStr u.

(** The presence table as the data model wants it: one entry per key, every
    stored count at least 1. *)
Definition table_ok (m : JSMap.t) : Prop :=
  NoDup (JSMap.keys m) /\ forall k c, JSMap.get k m = Some c -> 1 <= c.

(** What every reachable world satisfies. *)
Record Inv (w : World) : Prop := mkInv {
  inv_ids : NoDup (map id (sockets w));
  inv_table : table_ok (presenceCounts w);
  inv_count : forall u, u <> "" -> count_of w u = attached_count u (sockets w)
}.

(** The event broadcasts the online list to all connections. *)
Definition broadcasts_online (w : World) (e : event) : bool :=
  existsb is_online_broadcast (emitted w e).

(** Some user's count went from 0 to 1 or from 1 to 0 during the event. *)
Definition transition (w : World) (e : event) : Prop :=
  exists u, (count_of w u = 0 /\ count_of (step w e) u = 1)
         \/ (count_of w u = 1 /\ count_of (step w e) u = 0).

(** Some user's count changed during the event. *)
Definition count_changed (w : World) (e : event) : Prop :=
  exists u, count_of (step w e) u <> count_of w u.

Definition is_join_or_disconnect (e : event) : bool :=
  match e with
  | Join _ _ _ | Disconnect _ => true
  | _ => false
  end.

(** The requester of a message event may modify the message: it exists, the
    connection has an attached user, and that user's id is the message's
    [userId]. *)
Definition authorized (w : World) (sid : string) (msgId : value) : Prop :=
  exists socket msg user,
    find_socket sid w = Some socket /\
    JSONDB.findOne [("_id", msgId)] (db_messages w) = Some msg /\
    data_user socket = Some user /\
    get_field user "_id" = get_field msg "userId".

(** A handler keeps a relation between the world it starts in and the world
    it ends in. *)
Definition keeps (R : World -> World -> Prop) {A : Type} (c : M A) : Prop :=
  forall w, R w (snd (c w)).

(** What the presence bookkeeping looks at in a connection. *)
Definition att (s : Socket) : string * option string := (id s, data_userId s).


(** The footprint of the room part of the handlers: it touches the rooms,
    [data.currentChannel] and [data.user] of the connections and emits
    [room_users] to rooms, nothing else. *)
Definition rooms_only (w w' : World) : Prop :=
  db_users w' = db_users w /\
  db_messages w' = db_messages w /\
  presenceCounts w' = presenceCounts w /\
  timers w' = timers w /\
  map att (sockets w') = map att (sockets w) /\
  exists l, outbox w' = (outbox w ++ l)%list /\ forallb is_room_users l = true.

Definition set_userId (u : string) (s : Socket) : Socket :=
  mkSocket (id s) (data_user s) (Some u) (data_currentChannel s) (rooms s).

(** The test of the [filter] callback in [getUniqueUsers]. *)
Definition unique_test (user : obj) (index : Z) (self : list obj) : bool :=
  index =? findIndex (fun t => String.eqb (user_key t) (user_key user)) self.

Definition same_key (x t : obj) : bool := String.eqb (user_key t) (user_key x).

(** The first profile with key [k] in a list. *)
Definition first_with_key (k : string) (users : list obj) : option obj :=
  find (fun t => String.eqb (user_key t) k) users.

(** The profiles attached to a list of connections, in order. *)
Definition attached_profiles (ss : list Socket) : list obj :=
  filter_Boolean (map data_user ss).

Definition u_ann : obj :=
  [("_id", VStr "u1"); ("username", VStr "ann");
   ("password", VStr "$2a$10$annhash"); ("status", VStr "offline")].

Definition u_bob : obj :=
  [("_id", VStr "u2"); ("username", VStr "bob");
   ("password", VStr "$2a$10$bobhash"); ("status", VStr "offline")].

Definition m_hello : obj :=
  [("_id", VStr "m1"); ("text", VStr "hello"); ("userId", VStr "u1");
   ("channelId", VStr "general")].

(** A small world for examples: two registered users, one message. *)
Definition w_demo : World := init_world [u_ann; u_bob] [m_hello].

(* ===================================================================== *)
(** ** [database.js]: the rest of [class JSONDB]                          *)
(* ===================================================================== *)

(** [find(query)] *)
Definition JSONDB_find (query : obj) (data : JSONDB.t) : JSONDB.t :=
  filter (JSONDB.matches query) data.

(** [{ _id: uuidv4(), createdAt: new Date(), ...item }], for the uuid the
    call draws and the date as it reads back from the file. *)
Definition JSONDB_newItem (uuid : string) (now : value) (item : obj) : obj :=
  spread [("_id", VStr uuid); ("createdAt", now)] item.

(** [create(item)]: the file after the call; the call returns
    [JSONDB_newItem]. *)
Definition JSONDB_create (uuid : string) (now : value) (item : obj)
           (data : JSONDB.t) : JSONDB.t :=
  (data ++ [JSONDB_newItem uuid now item])%list.

(** [update(id, updates)]: what the call returns, [data[index]] after the
    assignment or [null]. *)
Definition JSONDB_update_result (id : value) (updates : obj) (data : JSONDB.t)
  : option obj :=
  let index := findIndex (fun item => strict_eq (get_field item "_id") id) data in
  if negb (index =? -1)
  then nth_error (JSONDB.update_at index updates data) (Z.to_nat index)
  else None.

(** [delete(id)]: what the call returns, [data.length !== initialLength]. *)
Definition JSONDB_delete_result (id : value) (data : JSONDB.t) : bool :=
  negb (Nat.eqb (length (JSONDB.delete id data)) (length data)).

(* ===================================================================== *)
(** ** [server.js]: the HTTP routes behind [authMiddleware]               *)
(* ===================================================================== *)

(** The bodies the routes send with [res.json]. *)
Inductive Json : Type :=
| JMessage (message : string)               (* { message } *)
| JList (items : list obj)                  (* an array of records *)
| JObject (o : obj)                         (* one record *)
| JUserToken (user : obj) (token : string). (* { user, token } *)

Record Response : Type := mkResponse {
  status : Z;
  json : Json
}.

(** [res.json(body)], status 200. *)
Definition res_json (body : Json) : Response := mkResponse 200 body.

(** [xs.slice(-n)] *)
Definition slice_last {A : Type} (n : nat) (xs : list A) : list A :=
  skipn (length xs - n) xs.

(** [app.get('/api/users', ...)] *)
Definition get_api_users (users : JSONDB.t) : Response :=
  res_json (JList (map (fun u => omit "password" u) users)).

(** [app.get('/api/messages', ...)], [channelId] being [req.query.channelId]. *)
Definition get_api_messages (channelId : value) (allMessages : JSONDB.t) : Response :=
  let messages :=
    if truthy channelId
    then filter (fun m => strict_eq (get_field m "channelId") channelId) allMessages
    else [] in
  res_json (JList (slice_last 50 messages)).

(** What a channel route emits with [io.emit]. *)
Inductive Broadcast : Type :=
| channel_created (channel : obj)
| channel_deleted (id : value).

(** [app.get('/api/channels', ...)]: the response and the channel file after
    the request. *)
Definition get_api_channels (uuid : string) (now : value) (channels : JSONDB.t)
  : Response * JSONDB.t :=
  if Nat.eqb (length channels) 0 then
    let channels' :=
      JSONDB_create uuid now [("name", VStr "general"); ("type", VStr "text")]
                    channels in
    (res_json (JList channels'), channels')
  else (res_json (JList channels), channels).

(** [app.post('/api/channels', ...)], [name] being [req.body.name] and
    [createdBy] being [req.user._id]. *)
Definition post_api_channels (name createdBy : value) (uuid : string) (now : value)
           (channels : JSONDB.t) : Response * JSONDB.t * option Broadcast :=
  if negb (truthy name) then
    (mkResponse 400 (JMessage "Channel name is required"), channels, None)
  else
    match JSONDB.findOne [("name", name)] channels with
    | Some existing =>
        (mkResponse 400 (JMessage "Channel already exists"), channels, None)
    | None =>
        let item := [("name", name); ("type", VStr "text"); ("createdBy", createdBy)] in
        let channel := JSONDB_newItem uuid now item in
        (res_json (JObject channel), JSONDB_create uuid now item channels,
         Some (channel_created channel))
    end.

(** [app.delete('/api/channels/:id', ...)], [id] being [req.params.id]. *)
Definition delete_api_channels (id : string) (channels : JSONDB.t)
  : Response * JSONDB.t * option Broadcast :=
  match JSONDB.findOne [("_id", VStr id)] channels with
  | None => (mkResponse 404 (JMessage "Channel not found"), channels, None)
  | Some channel =>
      if strict_eq (get_field channel "name") (VStr "general") then
        (mkResponse 403 (JMessage "Cannot delete general channel"), channels, None)
      else
        (res_json (JMessage "Channel deleted"), JSONDB.delete (VStr id) channels,
         Some (channel_deleted (VStr id)))
  end.

(* ===================================================================== *)
(** ** [controllers/authController.js]                                    *)
(* ===================================================================== *)

Section AuthController.

(** The two libraries the controller calls.  [bcrypt_hash p] is
    [await bcrypt.hash(p, 10)] and [bcrypt_compare p h] is
    [await bcrypt.compare(p, h)], [None] when the call throws (which the
    controller's [catch] turns into a 500); [jwt_sign id] is
    [jwt.sign({ id }, SECRET_KEY)]. *)
Variable bcrypt_hash : value -> option string.
Variable bcrypt_compare : value -> value -> option bool.
Variable jwt_sign : value -> string.

(** [exports.register], from the parsed [req.body] and the user file as it
    is when the request arrives: the response and the record that
    [db.users.create] appends to the file, if the request gets that far (the
    file is read again for the append, after the [await] of the hash). *)
Definition register (username email password : value) (uuid : string) (now : value)
           (users : JSONDB.t) : Response * option obj :=
  if negb (truthy username) || negb (truthy password) then
    (mkResponse 400 (JMessage "البيانات ناقصة"), None)
  else
    match JSONDB.findOne [("username", username)] users with
    | Some existingUser =>
        (mkResponse 400 (JMessage "اسم المستخدم مستخدم بالفعل"), None)
    | None =>
        match bcrypt_hash password with
        | None => (mkResponse 500 (JMessage "خطأ في الخادم"), None)
        | Some hashedPassword =>
            let newUser :=
              JSONDB_newItem uuid now
                [("username", username);
                 ("email", email);
                 ("password", VStr hashedPassword);
                 ("avatar", VStr ("https://api.dicebear.com/7.x/shapes/svg?seed="
                                    ++ String_ username));
                 ("theme", VStr "neon");
                 ("status", VStr "online")] in
            let token := jwt_sign (get_field newUser "_id") in
            (res_json (JUserToken (omit "password" newUser) token), Some newUser)
        end
    end.

(** [exports.login]; it writes nothing. *)
Definition login (username password : value) (users : JSONDB.t) : Response :=
  match JSONDB.findOne [("username", username)] users with
  | None => mkResponse 401 (JMessage "بيانات الدخول غير صحيحة")
  | Some user =>
      match bcrypt_compare password (get_field user "password") with
      | None => mkResponse 500 (JMessage "خطأ في الخادم")
      | Some isMatch =>
          if negb isMatch then mkResponse 401 (JMessage "بيانات الدخول غير صحيحة")
          else
            let token := jwt_sign (get_field user "_id") in
            res_json (JUserToken (omit "password" user) token)
      end
  end.

End AuthController.

(** The [updates] object of [exports.updateProfile]. *)
Definition profile_updates (username color isDiamond avatar : value) : obj :=
  ((if truthy username then [("username", username)] else []) ++
   (if truthy color then [("color", color)] else []) ++
   (if negb (strict_eq isDiamond VUndef) then [("isDiamond", isDiamond)] else []) ++
   (if truthy avatar then [("avatar", avatar)] else []))%list.

(** [exports.updateProfile], from the parsed [req.body] and [req.user._id]:
    the response and the user file after the request. *)
Definition updateProfile (username color isDiamond avatar : value) (userId : value)
           (users : JSONDB.t) : Response * JSONDB.t :=
  let updates := profile_updates username color isDiamond avatar in
  match JSONDB_update_result userId updates users with
  | None => (mkResponse 404 (JMessage "User not found"), users)
  | Some updatedUser =>
      (res_json (JObject (omit "password" updatedUser)),
       JSONDB.update userId updates users)
  end.

(* ===================================================================== *)
(** ** Notions for the properties of the rest of the code                 *)
(* ===================================================================== *)

(** The properties [updateProfile] can write. *)
Definition profile_fields : list string := ["username"; "color"; "isDiamond"; "avatar"].

(** The values of one property across a file. *)
Definition column (k : string) (data : JSONDB.t) : list value :=
  map (fun r => get_field r k) data.

(** No two records of the file agree on property [k]. *)
Definition unique_on (k : string) (data : JSONDB.t) : Prop := NoDup (column k data).

(** [socket.leave(room)] for every room of [L]. *)
Definition leave_rooms (L : list value) (s : Socket) : Socket :=
  mkSocket (id s) (data_user s) (data_userId s) (data_currentChannel s)
           (filter (fun r => negb (existsb (fun room => strict_eq room r) L))
                   (rooms s)).

(** What the room part of a [join] makes of the sockets with the handler's
    id: it leaves the rooms [L] and enters [channelId]. *)
Definition room_update (channelId : value) (L : list value) (s : Socket) : Socket :=
  let left := filter (fun r => negb (existsb (fun room => strict_eq room r) L))
                     (rooms s) in
  mkSocket (id s) (data_user s) (data_userId s) channelId
           (if truthy channelId
            then if existsb (strict_eq channelId) left then left
                 else (left ++ [channelId])%list
            else left).

(** What a successful [join] makes of the sockets with the handler's id:
    [L] are the rooms the handler leaves. *)
Definition joined (user : obj) (userId : option string) (channelId : value)
           (L : list value) (s : Socket) : Socket :=
  let left := filter (fun r => negb (existsb (fun room => strict_eq room r) L))
                     (rooms s) in
  mkSocket (id s) (Some user)
           (match userId with Some u => Some u | None => data_userId s end)
           channelId
           (if truthy channelId
            then if existsb (strict_eq channelId) left then left
                 else (left ++ [channelId])%list
            else left).

(** The attached profile and the attached user id of a connection agree. *)
Definition profile_ok (s : Socket) : Prop :=
  forall r, data_user s = Some r -> data_userId s = Some (user_key r).

(** The file has a channel named [general]. *)
Definition has_general (channels : JSONDB.t) : Prop :=
  exists c, In c channels /\ get_field c "name" = VStr "general".

(** The messages of a channel, in file order. *)
Definition channel_messages (channelId : value) (allMessages : JSONDB.t) : JSONDB.t :=
  filter (fun m => strict_eq (get_field m "channelId") channelId) allMessages.

(** A public copy of a record: no [password], every other property as in the
    record. *)
Definition public_copy (u p : obj) : Prop :=
  has_key p "password" = false /\
  forall k, k <> "password" -> get_field p k = get_field u k.

(* ===================================================================== *)
(** ** Basic facts                                                        *)
(* ===================================================================== *)

Lemma eqb_sym_false (a b : string) : String.eqb a b = false -> String.eqb b a = false.
Proof. rewrite (String.eqb_sym a b). auto. Qed.

Lemma strict_eq_refl (v : value) : strict_eq v v = true.
Proof.
  destruct v; simpl; auto using Bool.eqb_reflx, Z.eqb_refl, String.eqb_refl.
Qed.

Lemma strict_eq_eq (a b : value) : strict_eq a b = true -> a = b.
Proof.
  destruct a, b; simpl; try discriminate; intros H; auto.
  - apply Bool.eqb_prop in H. now subst.
  - apply Z.eqb_eq in H. now subst.
  - apply String.eqb_eq in H. now subst.
Qed.

Lemma or_zero_get (c : option Z) :
  or_zero c = match c with Some c => c | None => 0 end.
Proof.
  destruct c as [c|]; simpl; auto.
  destruct (Z.eqb_spec c 0); auto.
Qed.

Module JSMapFacts.
Import JSMap.

Lemma get_set_same k c m : get k (set k c m) = Some c.
Proof.
  induction m as [|[k' c'] m IH]; simpl.
  - now rewrite String.eqb_refl.
  - destruct (String.eqb k' k) eqn:E; simpl.
    + now rewrite String.eqb_refl.
    + now rewrite E.
Qed.

Lemma get_set_other k k' c m : k <> k' -> get k' (set k c m) = get k' m.
Proof.
  intros Hne. induction m as [|[k0 c0] m IH]; simpl.
  - destruct (String.eqb_spec k k'); [contradiction | reflexivity].
  - destruct (String.eqb_spec k0 k) as [->|Hk]; simpl.
    + destruct (String.eqb_spec k k'); [contradiction | reflexivity].
    + now rewrite IH.
Qed.

Lemma get_delete_same k m : get k (delete k m) = None.
Proof.
  induction m as [|[k' c'] m IH]; simpl; auto.
  destruct (String.eqb k' k) eqn:E; simpl; auto.
  now rewrite E.
Qed.

Lemma get_delete_other k k' m : k <> k' -> get k' (delete k m) = get k' m.
Proof.
  intros Hne. induction m as [|[k0 c0] m IH]; simpl; auto.
  destruct (String.eqb_spec k0 k) as [->|Hk]; simpl.
  - destruct (String.eqb_spec k k'); [contradiction | exact IH].
  - now rewrite IH.
Qed.

Lemma get_in k c m : get k m = Some c -> In (k, c) m.
Proof.
  induction m as [|[k' c'] m IH]; simpl; [discriminate|].
  destruct (String.eqb_spec k' k) as [->|]; intros H.
  - injection H as ->. now left.
  - right. auto.
Qed.

Lemma get_none_keys k m : get k m = None -> ~ In k (keys m).
Proof.
  induction m as [|[k' c'] m IH]; simpl; auto.
  destruct (String.eqb_spec k' k) as [->|]; [discriminate|].
  intros H [Hk|Hin]; [contradiction | now apply IH].
Qed.

Lemma in_get k c m : NoDup (keys m) -> In (k, c) m -> get k m = Some c.
Proof.
  induction m as [|[k' c'] m IH]; simpl; [tauto|].
  intros Hnd [Heq|Hin]; inversion Hnd as [|? ? Hnot Hnd']; subst.
  - injection Heq as -> ->. now rewrite String.eqb_refl.
  - destruct (String.eqb_spec k' k) as [->|]; auto.
    exfalso. apply Hnot. change k with (fst (k, c)). now apply in_map.
Qed.

Lemma keys_set k c m :
  keys (set k c m) = match get k m with
                     | Some _ => keys m
                     | None => (keys m ++ [k])%list
                     end.
Proof.
  induction m as [|[k' c'] m IH]; simpl; auto.
  destruct (String.eqb_spec k' k) as [->|]; simpl; auto.
  rewrite IH. now destruct (get k m).
Qed.

Lemma NoDup_set k c m : NoDup (keys m) -> NoDup (keys (set k c m)).
Proof.
  intros Hnd. rewrite keys_set. destruct (get k m) eqn:E; auto.
  apply get_none_keys in E.
  apply NoDup_rev in Hnd. rewrite <- (rev_involutive (keys m ++ [k])).
  apply NoDup_rev. rewrite rev_app_distr. simpl. constructor; auto.
  now rewrite <- in_rev.
Qed.

Lemma NoDup_delete k m : NoDup (keys m) -> NoDup (keys (delete k m)).
Proof.
  induction m as [|[k' c'] m IH]; simpl; auto.
  intros Hnd. inversion Hnd as [|? ? Hnot Hnd']; subst.
  destruct (String.eqb k' k); simpl; auto.
  constructor; auto.
  intros Hin. apply Hnot. unfold keys, delete in *.
  apply in_map_iff in Hin as [x [Hx Hin]]. apply filter_In in Hin as [Hin _].
  apply in_map_iff. eauto.
Qed.

End JSMapFacts.

(* ===================================================================== *)
(** ** [getUniqueUsers]                                                   *)
(* ===================================================================== *)

Section FindIndex.
Context {A : Type} (p : A -> bool).

Lemma findIndex_none (l : list A) : existsb p l = false -> findIndex p l = -1.
Proof.
  induction l as [|x l IH]; simpl; auto.
  destruct (p x); simpl; [discriminate|].
  intros H. rewrite (IH H). reflexivity.
Qed.

Lemma findIndex_some (l : list A) :
  existsb p l = true -> 0 <= findIndex p l < Z.of_nat (length l).
Proof.
  induction l as [|x l IH]; [discriminate|].
  cbn [findIndex existsb length]. rewrite Nat2Z.inj_succ.
  destruct (p x); cbn [orb]; [lia|].
  intros H. specialize (IH H).
  destruct (Z.ltb_spec (findIndex p l) 0); lia.
Qed.

Lemma findIndex_app (pre l : list A) :
  findIndex p (pre ++ l) =
  if existsb p pre then findIndex p pre
  else if findIndex p l <? 0 then -1
       else Z.of_nat (length pre) + findIndex p l.
Proof.
  induction pre as [|x pre IH].
  - cbn [app existsb length]. change (Z.of_nat 0) with 0.
    destruct (Z.ltb_spec (findIndex p l) 0) as [Hlt|Hge]; [|lia].
    destruct (existsb p l) eqn:E.
    + apply findIndex_some in E. lia.
    + now apply findIndex_none.
  - cbn [app findIndex existsb length]. rewrite Nat2Z.inj_succ.
    destruct (p x); cbn [orb]; auto.
    rewrite IH. destruct (existsb p pre) eqn:E; auto.
    destruct (Z.ltb_spec (findIndex p l) 0); auto.
    destruct (Z.ltb_spec (Z.of_nat (length pre) + findIndex p l) 0); lia.
Qed.

(** The index test of [getUniqueUsers] at position [length pre]: it holds
    exactly when nothing before that position satisfies [p]. *)
Lemma first_index_test (pre : list A) (x : A) (suf : list A) :
  p x = true ->
  (Z.of_nat (length pre) =? findIndex p (pre ++ x :: suf)) = negb (existsb p pre).
Proof.
  intros Hx. rewrite findIndex_app. cbn [findIndex]. rewrite Hx.
  change (0 <? 0) with false. cbv iota.
  destruct (existsb p pre) eqn:E; cbn [negb].
  - apply findIndex_some in E. apply Z.eqb_neq. lia.
  - apply Z.eqb_eq. lia.
Qed.

Lemma find_app_none (pre l : list A) :
  existsb p pre = false -> find p (pre ++ l) = find p l.
Proof.
  induction pre as [|x pre IH]; simpl; auto.
  destruct (p x); simpl; [discriminate | auto].
Qed.

End FindIndex.

Lemma getUniqueUsers_eq (ss : list Socket) :
  getUniqueUsers ss
  = filteri_from unique_test (attached_profiles ss) 0 (attached_profiles ss).
Proof. reflexivity. Qed.

Lemma existsb_snoc {A : Type} (f : A -> bool) (l : list A) (x : A) :
  existsb f (l ++ [x]) = existsb f l || f x.
Proof. rewrite existsb_app. simpl. now rewrite orb_false_r. Qed.

Lemma length_snoc {A : Type} (l : list A) (x : A) :
  Z.of_nat (length (l ++ [x])) = Z.of_nat (length l) + 1.
Proof. rewrite length_app. simpl. lia. Qed.

(** Whatever is kept from the suffix has a key that no earlier profile has. *)
Lemma unique_kept_fresh (suf pre : list obj) (x : obj) :
  In x (filteri_from unique_test (pre ++ suf) (Z.of_nat (length pre)) suf) ->
  existsb (same_key x) pre = false.
Proof.
  revert pre. induction suf as [|y suf IH]; simpl; intros pre Hin; [tauto|].
  assert (Hrec :
    In x (filteri_from unique_test (pre ++ y :: suf) (Z.of_nat (length pre) + 1) suf) ->
    existsb (same_key x) pre = false).
  { intros H. rewrite <- (length_snoc pre y) in H.
    replace (pre ++ y :: suf)%list with ((pre ++ [y]) ++ suf)%list in H
      by (now rewrite <- app_assoc).
    apply IH in H. rewrite existsb_snoc in H.
    now apply orb_false_iff in H as [H _]. }
  unfold unique_test at 1 in Hin.
  rewrite (first_index_test (same_key y)) in Hin
    by (unfold same_key; apply String.eqb_refl).
  destruct (existsb (same_key y) pre) eqn:E; simpl in Hin; auto.
  destruct Hin as [->|Hin]; auto.
Qed.

Lemma unique_kept_in (suf : list obj) (self : list obj) (i : Z) (x : obj) :
  In x (filteri_from unique_test self i suf) -> In x suf.
Proof.
  revert i. induction suf as [|y suf IH]; simpl; intros i Hin; auto.
  destruct (unique_test y i self); [destruct Hin as [->|Hin]|]; eauto.
Qed.

Lemma unique_keys_NoDup (suf pre : list obj) :
  NoDup (map user_key
           (filteri_from unique_test (pre ++ suf) (Z.of_nat (length pre)) suf)).
Proof.
  revert pre. induction suf as [|y suf IH]; simpl; intros pre; [constructor|].
  assert (Hrec := IH (pre ++ [y])%list).
  rewrite length_snoc, <- app_assoc in Hrec. simpl in Hrec.
  destruct (unique_test y (Z.of_nat (length pre)) (pre ++ y :: suf)); auto.
  simpl. constructor; auto.
  intros Hin. apply in_map_iff in Hin as [x [Hk Hin]].
  rewrite <- (length_snoc pre y) in Hin.
  replace (pre ++ y :: suf)%list with ((pre ++ [y]) ++ suf)%list in Hin
    by (now rewrite <- app_assoc).
  apply unique_kept_fresh in Hin. rewrite existsb_snoc in Hin.
  apply orb_false_iff in Hin as [_ Hy]. unfold same_key in Hy.
  rewrite Hk, String.eqb_refl in Hy. discriminate.
Qed.

(** Kept profiles are first occurrences of their key... *)
Lemma unique_kept_first (suf pre : list obj) (x : obj) :
  In x (filteri_from unique_test (pre ++ suf) (Z.of_nat (length pre)) suf) ->
  first_with_key (user_key x) (pre ++ suf) = Some x.
Proof.
  revert pre. induction suf as [|y suf IH]; simpl; intros pre Hin; [tauto|].
  assert (Hrec :
    In x (filteri_from unique_test (pre ++ y :: suf) (Z.of_nat (length pre) + 1) suf) ->
    first_with_key (user_key x) (pre ++ y :: suf) = Some x).
  { intros H. rewrite <- (length_snoc pre y) in H.
    replace (pre ++ y :: suf)%list with ((pre ++ [y]) ++ suf)%list in *
      by (now rewrite <- app_assoc).
    now apply IH. }
  unfold unique_test at 1 in Hin.
  rewrite (first_index_test (same_key y)) in Hin
    by (unfold same_key; apply String.eqb_refl).
  destruct (existsb (same_key y) pre) eqn:E; simpl in Hin; auto.
  destruct Hin as [->|Hin]; auto.
  unfold first_with_key. rewrite find_app_none by exact E.
  simpl. now rewrite String.eqb_refl.
Qed.

(** ... and every first occurrence is kept. *)
Lemma unique_first_kept (suf pre : list obj) (k : string) (x : obj) :
  existsb (fun t => String.eqb (user_key t) k) pre = false ->
  first_with_key k (pre ++ suf) = Some x ->
  In x (filteri_from unique_test (pre ++ suf) (Z.of_nat (length pre)) suf).
Proof.
  revert pre. induction suf as [|y suf IH]; intros pre Hpre Hfind.
  - unfold first_with_key in Hfind. rewrite find_app_none in Hfind by exact Hpre.
    discriminate.
  - assert (Hrec :
      String.eqb (user_key y) k = false ->
      In x (filteri_from unique_test (pre ++ y :: suf) (Z.of_nat (length pre) + 1) suf)).
    { intros Hy. rewrite <- (length_snoc pre y).
      replace (pre ++ y :: suf)%list with ((pre ++ [y]) ++ suf)%list in *
        by (now rewrite <- app_assoc).
      apply IH; auto. rewrite existsb_snoc, Hpre, Hy. reflexivity. }
    simpl. unfold unique_test at 1.
    rewrite (first_index_test (same_key y))
      by (unfold same_key; apply String.eqb_refl).
    unfold first_with_key in Hfind. rewrite find_app_none in Hfind by exact Hpre.
    simpl in Hfind.
    destruct (String.eqb_spec (user_key y) k) as [Hk|Hk].
    + injection Hfind as ->. unfold same_key. subst k. rewrite Hpre. simpl. now left.
    + destruct (existsb (same_key y) pre); simpl; auto.
Qed.

Lemma NoDup_map_compose {A B C : Type} (f : A -> B) (g : B -> C) (l : list A) :
  NoDup (map (fun x => g (f x)) l) -> NoDup (map f l).
Proof.
  intros H. rewrite <- (map_map f g) in H. now apply NoDup_map_inv in H.
Qed.

(** C5. A [room_users] payload computed by [getUniqueUsers] from any list of
    connections never holds two entries with the same user id, however many
    connections a user has in the list; the de-duplication key is the user
    id ([String(user._id)]), and the entry kept for a key is the profile of
    the first connection in the list that carries it (and every user of the
    list keeps such an entry). *)
Theorem room_users_unique_first_wins (ss : list Socket) :
  NoDup (map user_key (getUniqueUsers ss)) /\
  NoDup (map (fun p => get_field p "_id") (getUniqueUsers ss)) /\
  (forall p, In p (getUniqueUsers ss) <->
             exists k, first_with_key k (attached_profiles ss) = Some p).
Proof.
  rewrite getUniqueUsers_eq.
  pose proof (unique_keys_NoDup (attached_profiles ss) []) as Hnd.
  simpl in Hnd. split; [exact Hnd|]. split.
  - apply (NoDup_map_compose (fun p => get_field p "_id") String_). exact Hnd.
  - intros p. split.
    + intros Hin. exists (user_key p).
      apply (unique_kept_first (attached_profiles ss) [] p Hin).
    + intros [k Hk].
      apply (unique_first_kept (attached_profiles ss) [] k p); auto.
Qed.

(* ===================================================================== *)
(** ** Footprints of the handlers                                         *)
(* ===================================================================== *)

Section Keeps.
Variable R : World -> World -> Prop.
Hypothesis R_refl : forall w, R w w.
Hypothesis R_trans : forall a b c, R a b -> R b c -> R a c.

Lemma keeps_ret {A : Type} (a : A) : keeps R (ret a).
Proof. intros w. apply R_refl. Qed.

Lemma keeps_bind {A B : Type} (c : M A) (k : A -> M B) :
  keeps R c -> (forall a, keeps R (k a)) -> keeps R (bind c k).
Proof.
  intros Hc Hk w. unfold bind.
  eapply R_trans; [apply Hc | apply Hk].
Qed.

Lemma keeps_when (b : bool) (c : M unit) : keeps R c -> keeps R (when b c).
Proof. destruct b; simpl; auto using keeps_ret. Qed.

Lemma keeps_for_each {A : Type} (xs : list A) (body : A -> M unit) :
  (forall x, keeps R (body x)) -> keeps R (for_each xs body).
Proof.
  intros Hb. induction xs as [|x xs IH]; simpl.
  - apply keeps_ret.
  - apply keeps_bind; auto.
Qed.
End Keeps.

Lemma rooms_only_refl (w : World) : rooms_only w w.
Proof.
  repeat split; auto. exists []. now rewrite app_nil_r.
Qed.

Lemma rooms_only_trans (a b c : World) :
  rooms_only a b -> rooms_only b c -> rooms_only a c.
Proof.
  intros (U1 & M1 & P1 & T1 & S1 & l1 & O1 & F1) (U2 & M2 & P2 & T2 & S2 & l2 & O2 & F2).
  repeat split; try congruence.
  exists (l1 ++ l2)%list. split.
  - rewrite O2, O1. now rewrite app_assoc.
  - rewrite forallb_app, F1, F2. reflexivity.
Qed.

Lemma map_att_modify (sid : string) (f : Socket -> Socket) (ss : list Socket) :
  (forall s, att (f s) = att s) ->
  map att (modify_socket sid f ss) = map att ss.
Proof.
  intros Hf. unfold modify_socket. rewrite map_map. apply map_ext.
  intros s. destruct (String.eqb (id s) sid); auto.
Qed.

Lemma rooms_only_sockets (sid : string) (f : Socket -> Socket) (w : World) :
  (forall s, att (f s) = att s) ->
  rooms_only w (with_sockets (modify_socket sid f) w).
Proof.
  intros Hf. repeat split; simpl; auto using map_att_modify.
  exists []. now rewrite app_nil_r.
Qed.

Lemma rooms_only_emit (room : value) (us : list obj) :
  keeps rooms_only (emit (ToRoom room) "room_users" (PUsers us)).
Proof.
  intros w. repeat split; simpl; auto.
  eexists. split; [reflexivity | reflexivity].
Qed.

Lemma rooms_only_notify (room : value) :
  keeps rooms_only (sockets <- fetchSockets room ;;
                    emit (ToRoom room) "room_users" (PUsers (getUniqueUsers sockets))).
Proof.
  apply keeps_bind; [exact rooms_only_trans | | intros ss].
  - intros w. apply rooms_only_refl.
  - apply rooms_only_emit.
Qed.

Lemma join_rooms_block_keeps (sid : string) (channelId : value) :
  keeps rooms_only (join_rooms_block sid channelId).
Proof.
  unfold join_rooms_block.
  apply keeps_bind; [exact rooms_only_trans | | intros _].
  { intros w. now apply rooms_only_sockets. }
  apply keeps_bind; [exact rooms_only_trans | | intros socket].
  { intros w. apply rooms_only_refl. }
  apply keeps_bind; [exact rooms_only_trans | | intros _].
  - apply keeps_for_each; [exact rooms_only_refl | exact rooms_only_trans |].
    intros room. apply keeps_when; [exact rooms_only_refl |].
    apply keeps_bind; [exact rooms_only_trans | | intros _].
    + intros w. now apply rooms_only_sockets.
    + apply rooms_only_notify.
  - apply keeps_when; [exact rooms_only_refl |].
    apply keeps_bind; [exact rooms_only_trans | | intros _].
    + intros w. now apply rooms_only_sockets.
    + apply rooms_only_notify.
Qed.

Lemma online_list_ext (w1 w2 : World) :
  db_users w1 = db_users w2 -> presenceCounts w1 = presenceCounts w2 ->
  online_list w1 = online_list w2.
Proof.
  intros U P. unfold online_list, getOnlineUsersPublic. simpl. now rewrite U, P.
Qed.

(** [on_join] is the lookup followed by its three blocks. *)
Lemma on_join_blocks (sid : string) (userId channelId : value) (w : World) :
  on_join sid userId channelId w =
  match JSONDB.findOne [("_id", userId)] (db_users w) with
  | None => (tt, w)
  | Some user =>
      (set_data_user sid user ;;
       join_presence_block sid userId ;;
       join_rooms_block sid channelId) w
  end.
Proof.
  unfold on_join, bind, db_users_findOne. simpl.
  destruct (JSONDB.findOne [("_id", userId)] (db_users w)); reflexivity.
Qed.

Lemma find_modify_same (sid : string) (f : Socket -> Socket) (ss : list Socket) :
  (forall s, id (f s) = id s) ->
  find (fun s => String.eqb (id s) sid) (modify_socket sid f ss)
  = option_map f (find (fun s => String.eqb (id s) sid) ss).
Proof.
  intros Hf. induction ss as [|s ss IH]; simpl; auto.
  destruct (String.eqb (id s) sid) eqn:E.
  - now rewrite Hf, E.
  - now rewrite E.
Qed.

Lemma find_modify_other (sid sid' : string) (f : Socket -> Socket) (ss : list Socket) :
  (forall s, id (f s) = id s) -> sid <> sid' ->
  find (fun s => String.eqb (id s) sid') (modify_socket sid f ss)
  = find (fun s => String.eqb (id s) sid') ss.
Proof.
  intros Hf Hne. induction ss as [|s ss IH]; simpl; auto.
  destruct (String.eqb_spec (id s) sid) as [Hs|Hs].
  - rewrite Hf. destruct (String.eqb_spec (id s) sid'); [congruence | auto].
  - destruct (String.eqb (id s) sid'); auto.
Qed.

(** The presence block when the connection already holds the declared id. *)
Lemma join_presence_same (sid : string) (userId : value) (w : World) (s : Socket) :
  find_socket sid w = Some s ->
  differs (attached_userId s) (String_ userId) = false ->
  join_presence_block sid userId w = (tt, w).
Proof.
  intros Hs Hd. unfold join_presence_block, bind, this_socket. simpl.
  rewrite Hs, Hd. reflexivity.
Qed.

(** The presence block when it does not. *)
Lemma join_presence_switch (sid : string) (userId : value) (w : World) (s : Socket) :
  find_socket sid w = Some s ->
  differs (attached_userId s) (String_ userId) = true ->
  let w' := exec (join_presence_block sid userId) w in
  presenceCounts w' =
    table_attach (String_ userId)
      (match attached_userId s with
       | Some prev => table_detach prev (presenceCounts w)
       | None => presenceCounts w
       end) /\
  sockets w' = modify_socket sid (set_userId (String_ userId)) (sockets w) /\
  db_messages w' = db_messages w /\
  timers w' = timers w /\
  outbox w' =
    (outbox w ++ [mkEmission ToAll "online_users" (PUsers (online_list w'))])%list.
Proof.
  intros Hs Hd. unfold exec, join_presence_block, bind, this_socket.
  cbn -[getOnlineUsersPublic]. rewrite Hs, Hd. cbn -[getOnlineUsersPublic].
  destruct (attached_userId s) as [prev|]; cbn -[getOnlineUsersPublic].
  - unfold table_detach.
    destruct (or_zero (JSMap.get prev (presenceCounts w)) - 1 <=? 0);
      cbn -[getOnlineUsersPublic];
      match goal with
      | |- context [when ?b ?c ?w0] => destruct b; cbn -[getOnlineUsersPublic]
      end; repeat split.
  - match goal with
    | |- context [when ?b ?c ?w0] => destruct b; cbn -[getOnlineUsersPublic]
    end; repeat split.
Qed.

(* ===================================================================== *)
(** ** The presence table                                                 *)
(* ===================================================================== *)

Section Table.
Import JSMap JSMapFacts.

Lemma count_attach_same k m :
  or_zero (get k (table_attach k m)) = or_zero (get k m) + 1.
Proof.
  unfold table_attach. rewrite get_set_same. simpl.
  destruct (Z.eqb_spec (or_zero (get k m) + 1) 0); lia.
Qed.

Lemma count_attach_other k k' m :
  k <> k' -> or_zero (get k' (table_attach k m)) = or_zero (get k' m).
Proof. intros H. unfold table_attach. now rewrite get_set_other. Qed.

Lemma count_detach_same k m :
  or_zero (get k (table_detach k m)) = Z.max 0 (or_zero (get k m) - 1).
Proof.
  unfold table_detach.
  destruct (Z.leb_spec (or_zero (get k m) - 1) 0).
  - rewrite get_delete_same. simpl. lia.
  - rewrite get_set_same. simpl.
    destruct (Z.eqb_spec (or_zero (get k m) - 1) 0); lia.
Qed.

Lemma count_detach_other k k' m :
  k <> k' -> or_zero (get k' (table_detach k m)) = or_zero (get k' m).
Proof.
  intros H. unfold table_detach.
  destruct (or_zero (get k m) - 1 <=? 0).
  - now rewrite get_delete_other.
  - now rewrite get_set_other.
Qed.

Lemma table_ok_count_nonneg m k : table_ok m -> 0 <= or_zero (get k m).
Proof.
  intros [_ H]. rewrite or_zero_get. destruct (get k m) as [c|] eqn:E; [|lia].
  apply H in E. lia.
Qed.

Lemma table_ok_attach k m : table_ok m -> table_ok (table_attach k m).
Proof.
  intros Hok. pose proof (table_ok_count_nonneg m k Hok) as Hk.
  destruct Hok as [Hnd Hv]. split.
  - now apply NoDup_set.
  - intros k' c. unfold table_attach.
    destruct (String.eqb_spec k k') as [<-|Hne].
    + rewrite get_set_same. intros [= <-]. lia.
    + rewrite get_set_other by exact Hne. apply Hv.
Qed.

Lemma table_ok_detach k m : table_ok m -> table_ok (table_detach k m).
Proof.
  intros [Hnd Hv]. unfold table_detach.
  destruct (Z.leb_spec (or_zero (get k m) - 1) 0); split.
  - now apply NoDup_delete.
  - intros k' c. destruct (String.eqb_spec k k') as [<-|Hne].
    + rewrite get_delete_same. discriminate.
    + rewrite get_delete_other by exact Hne. apply Hv.
  - now apply NoDup_set.
  - intros k' c. destruct (String.eqb_spec k k') as [<-|Hne].
    + rewrite get_set_same. intros [= <-]. lia.
    + rewrite get_set_other by exact Hne. apply Hv.
Qed.


End Table.

(* ===================================================================== *)
(** ** Counting attached connections                                      *)
(* ===================================================================== *)

Lemma attached_count_b2z u s rest :
  attached_count u (s :: rest) = b2z (attached_to u s) + attached_count u rest.
Proof. reflexivity. Qed.

Lemma attached_count_nonneg u ss : 0 <= attached_count u ss.
Proof.
  induction ss as [|s ss IH]; simpl; [lia|].
  destruct (attached_to u s); lia.
Qed.

Lemma attached_to_att u s s' : att s = att s' -> attached_to u s = attached_to u s'.
Proof.
  unfold att, attached_to, attached_userId. intros [= _ H]. now rewrite H.
Qed.

Lemma attached_count_ext u ss ss' :
  map att ss = map att ss' -> attached_count u ss = attached_count u ss'.
Proof.
  revert ss'. induction ss as [|s ss IH]; intros [|s' ss'] H; cbn [map] in H;
    try discriminate; auto.
  assert (Hs : att s = att s') by congruence.
  assert (Hrest : map att ss = map att ss') by congruence.
  cbn [attached_count].
  rewrite (attached_to_att u s s' Hs), (IH ss' Hrest). reflexivity.
Qed.

Lemma map_id_att ss : map id ss = map fst (map att ss).
Proof. rewrite map_map. reflexivity. Qed.

Lemma find_att sid ss ss' :
  map att ss = map att ss' ->
  option_map att (find (fun s => String.eqb (id s) sid) ss)
  = option_map att (find (fun s => String.eqb (id s) sid) ss').
Proof.
  revert ss'. induction ss as [|s ss IH]; intros [|s' ss'] H; cbn [map] in H;
    try discriminate; auto.
  assert (Hs : att s = att s') by congruence.
  assert (Hrest : map att ss = map att ss') by congruence.
  assert (Hid : id s = id s') by (unfold att in Hs; congruence).
  cbn [find]. rewrite <- Hid. destruct (String.eqb (id s) sid); cbn [option_map]; auto.
  now rewrite Hs.
Qed.

Lemma find_not_in sid ss :
  ~ In sid (map id ss) -> find (fun s => String.eqb (id s) sid) ss = None.
Proof.
  induction ss as [|s ss IH]; simpl; auto.
  intros H. destruct (String.eqb_spec (id s) sid); [tauto | apply IH; tauto].
Qed.

Lemma find_none_not_in sid ss :
  find (fun s => String.eqb (id s) sid) ss = None -> ~ In sid (map id ss).
Proof.
  induction ss as [|s ss IH]; simpl; auto.
  destruct (String.eqb_spec (id s) sid); [discriminate|].
  intros H [Hs|Hin]; [contradiction | now apply IH].
Qed.

Lemma find_some_id sid ss s :
  find (fun s => String.eqb (id s) sid) ss = Some s -> id s = sid /\ In s ss.
Proof.
  intros H. apply find_some in H as [Hin Hid].
  apply String.eqb_eq in Hid. auto.
Qed.

Lemma modify_not_in sid f ss :
  ~ In sid (map id ss) -> modify_socket sid f ss = ss.
Proof.
  induction ss as [|s ss IH]; simpl; auto.
  intros H. destruct (String.eqb_spec (id s) sid); [tauto|].
  rewrite IH; tauto.
Qed.

Lemma remove_not_in sid ss :
  ~ In sid (map id ss) -> remove_socket sid ss = ss.
Proof.
  induction ss as [|s ss IH]; simpl; auto.
  intros H. destruct (String.eqb_spec (id s) sid); [tauto|]. simpl.
  rewrite IH; tauto.
Qed.

Lemma count_modify u sid f ss s :
  NoDup (map id ss) ->
  find (fun s => String.eqb (id s) sid) ss = Some s ->
  attached_count u (modify_socket sid f ss)
  = attached_count u ss - b2z (attached_to u s) + b2z (attached_to u (f s)).
Proof.
  induction ss as [|x ss IH]; [discriminate|].
  intros Hnd Hfind. inversion Hnd as [|? ? Hnot Hnd']; subst.
  cbn [modify_socket map find] in *.
  destruct (String.eqb_spec (id x) sid) as [Hx|Hx].
  - injection Hfind as ->. rewrite !attached_count_b2z.
    fold (modify_socket sid f ss). rewrite modify_not_in by congruence. lia.
  - rewrite !attached_count_b2z. fold (modify_socket sid f ss).
    rewrite IH by assumption. lia.
Qed.

Lemma count_remove u sid ss s :
  NoDup (map id ss) ->
  find (fun s => String.eqb (id s) sid) ss = Some s ->
  attached_count u (remove_socket sid ss)
  = attached_count u ss - b2z (attached_to u s).
Proof.
  induction ss as [|x ss IH]; [discriminate|].
  intros Hnd Hfind. inversion Hnd as [|? ? Hnot Hnd']; subst.
  cbn [remove_socket filter find] in *.
  destruct (String.eqb_spec (id x) sid) as [Hx|Hx]; cbn [negb].
  - injection Hfind as ->. rewrite attached_count_b2z.
    fold (remove_socket sid ss). rewrite remove_not_in by congruence. lia.
  - rewrite !attached_count_b2z. fold (remove_socket sid ss).
    rewrite IH by assumption. lia.
Qed.

Lemma count_snoc u ss s :
  attached_count u (ss ++ [s]) = attached_count u ss + b2z (attached_to u s).
Proof.
  induction ss as [|x ss IH]; cbn [app].
  - rewrite attached_count_b2z. cbn [attached_count]. lia.
  - rewrite !attached_count_b2z, IH. lia.
Qed.

Lemma count_pos u ss s :
  In s ss -> attached_to u s = true -> 1 <= attached_count u ss.
Proof.
  induction ss as [|x ss IH]; [contradiction|].
  intros [->|Hin] Hs; rewrite attached_count_b2z.
  - rewrite Hs. pose proof (attached_count_nonneg u ss). unfold b2z. lia.
  - specialize (IH Hin Hs). destruct (attached_to u x); unfold b2z; lia.
Qed.

Lemma find_remove_same sid ss :
  find (fun s => String.eqb (id s) sid) (remove_socket sid ss) = None.
Proof.
  induction ss as [|x ss IH]; simpl; auto.
  destruct (String.eqb (id x) sid) eqn:E; simpl; auto.
  now rewrite E.
Qed.

Lemma NoDup_remove sid ss :
  NoDup (map id ss) -> NoDup (map id (remove_socket sid ss)).
Proof.
  induction ss as [|x ss IH]; simpl; auto.
  intros Hnd. inversion Hnd as [|? ? Hnot Hnd']; subst.
  destruct (String.eqb (id x) sid); simpl; auto.
  constructor; auto.
  intros Hin. apply Hnot. apply in_map_iff in Hin as [y [Hy Hin]].
  apply filter_In in Hin as [Hin _]. apply in_map_iff. eauto.
Qed.

Lemma NoDup_snoc {A : Type} (l : list A) (x : A) :
  NoDup l -> ~ In x l -> NoDup (l ++ [x]).
Proof.
  intros Hnd Hx. apply NoDup_rev in Hnd.
  rewrite <- (rev_involutive (l ++ [x])). apply NoDup_rev.
  rewrite rev_app_distr. simpl. constructor; auto. now rewrite <- in_rev.
Qed.

Lemma find_snoc_other sid ss s :
  find (fun s => String.eqb (id s) sid) ss = None ->
  find (fun s => String.eqb (id s) sid) (ss ++ [s])
  = if String.eqb (id s) sid then Some s else None.
Proof.
  induction ss as [|x ss IH]; simpl; auto.
  destruct (String.eqb (id x) sid); [discriminate | auto].
Qed.

Lemma skipn_all_app {A : Type} (a l : list A) : skipn (length a) (a ++ l) = l.
Proof. induction a; simpl; auto. Qed.

Lemma emitted_of (w : World) (e : event) (l : list Emission) :
  outbox (step w e) = (outbox w ++ l)%list -> emitted w e = l.
Proof. intros H. unfold emitted. rewrite H. apply skipn_all_app. Qed.

Lemma emitted_same (w : World) (e : event) : step w e = w -> emitted w e = [].
Proof.
  intros H. apply emitted_of. rewrite H. now rewrite app_nil_r.
Qed.

(* ===================================================================== *)
(** ** What each event does                                               *)
(* ===================================================================== *)

Lemma map_att_modify_twice (sid : string) (f g : Socket -> Socket) (ss : list Socket) :
  (forall s, att (g (f s)) = att (g s)) ->
  (forall s, id (f s) = id s) ->
  map att (modify_socket sid g (modify_socket sid f ss))
  = map att (modify_socket sid g ss).
Proof.
  intros Hgf Hf. unfold modify_socket. rewrite !map_map. apply map_ext.
  intros s. destruct (String.eqb (id s) sid) eqn:E.
  - now rewrite Hf, E.
  - now rewrite E.
Qed.

(** A [join] whose user id is not in the store changes nothing at all. *)
Lemma step_join_unknown (w : World) (sid : string) (userId channelId : value) :
  JSONDB.findOne [("_id", userId)] (db_users w) = None ->
  step w (Join sid userId channelId) = w.
Proof.
  intros Hnone. unfold step. destruct (is_live sid w); auto.
  unfold exec. rewrite on_join_blocks, Hnone. reflexivity.
Qed.

Lemma step_join_dead (w : World) (sid : string) (userId channelId : value) :
  find_socket sid w = None -> step w (Join sid userId channelId) = w.
Proof. intros H. unfold step, is_live. now rewrite H. Qed.

(** A [join] of a live connection with a user the store knows. *)
Lemma step_join_found (w : World) (sid : string) (userId channelId : value)
      (s : Socket) (user : obj) :
  find_socket sid w = Some s ->
  JSONDB.findOne [("_id", userId)] (db_users w) = Some user ->
  let w' := step w (Join sid userId channelId) in
  let next := String_ userId in
  db_messages w' = db_messages w /\
  timers w' = timers w /\
  if differs (attached_userId s) next then
    presenceCounts w' =
      table_attach next
        (match attached_userId s with
         | Some prev => table_detach prev (presenceCounts w)
         | None => presenceCounts w
         end) /\
    map att (sockets w') = map att (modify_socket sid (set_userId next) (sockets w)) /\
    exists l,
      emitted w (Join sid userId channelId)
      = mkEmission ToAll "online_users" (PUsers (online_list w')) :: l /\
      forallb is_room_users l = true
  else
    presenceCounts w' = presenceCounts w /\
    db_users w' = db_users w /\
    map att (sockets w') = map att (sockets w) /\
    exists l,
      emitted w (Join sid userId channelId) = l /\ forallb is_room_users l = true.
Proof.
  intros Hs Hu w' next.
  assert (Hw' : w' = snd (join_rooms_block sid channelId
                      (snd (join_presence_block sid userId
                         (snd (set_data_user sid user w)))))).
  { subst w'. unfold step, is_live. rewrite Hs. unfold exec.
    rewrite on_join_blocks, Hu. reflexivity. }
  set (f := fun s0 : Socket =>
              mkSocket (id s0) (Some user) (data_userId s0)
                       (data_currentChannel s0) (rooms s0)).
  set (w1 := snd (set_data_user sid user w)) in *.
  assert (Hs1 : find_socket sid w1 = Some (f s)).
  { unfold find_socket, w1, set_data_user. simpl.
    rewrite find_modify_same by reflexivity.
    unfold find_socket in Hs. now rewrite Hs. }
  assert (Hatt1 : map att (sockets w1) = map att (sockets w)).
  { unfold w1, set_data_user. simpl. now apply map_att_modify. }
  assert (M1 : db_messages w1 = db_messages w) by reflexivity.
  assert (T1 : timers w1 = timers w) by reflexivity.
  assert (P1 : presenceCounts w1 = presenceCounts w) by reflexivity.
  assert (U1 : db_users w1 = db_users w) by reflexivity.
  assert (O1 : outbox w1 = outbox w) by reflexivity.
  set (w2 := snd (join_presence_block sid userId w1)) in *.
  destruct (join_rooms_block_keeps sid channelId w2)
    as (U3 & M3 & P3 & T3 & S3 & l & O3 & F3).
  rewrite <- Hw' in *.
  change (attached_userId s) with (attached_userId (f s)).
  destruct (differs (attached_userId (f s)) next) eqn:Hd.
  - destruct (join_presence_switch sid userId w1 (f s) Hs1 Hd)
      as (P2 & S2 & M2 & T2 & O2).
    change (exec (join_presence_block sid userId) w1) with w2 in P2, S2, M2, T2, O2.
    split; [congruence|]. split; [congruence|].
    split; [rewrite P3, P2, P1; reflexivity|].
    split.
    + rewrite S3, S2. unfold w1, set_data_user. simpl.
      now apply map_att_modify_twice.
    + exists l. split; auto.
      apply emitted_of. fold w'. rewrite O3, O2, O1.
      rewrite (online_list_ext w' w2) by assumption.
      now rewrite <- app_assoc.
  - assert (E2 : w2 = w1).
    { unfold w2. now rewrite (join_presence_same sid userId w1 (f s) Hs1 Hd). }
    rewrite E2 in *.
    split; [congruence|]. split; [congruence|].
    split; [congruence|]. split; [congruence|].
    split; [congruence|].
    exists l. split; auto.
    apply emitted_of. fold w'. rewrite O3, O1. reflexivity.
Qed.

Lemma step_disconnect_dead (w : World) (sid : string) :
  find_socket sid w = None -> step w (Disconnect sid) = w.
Proof. intros H. unfold step. now rewrite H. Qed.

(** A [disconnect] of a live connection. *)
Lemma step_disconnect_live (w : World) (sid : string) (s : Socket) :
  find_socket sid w = Some s ->
  let w' := step w (Disconnect sid) in
  sockets w' = remove_socket sid (sockets w) /\
  db_messages w' = db_messages w /\
  timers w' = (timers w ++ if truthy (data_currentChannel s)
                           then [data_currentChannel s] else [])%list /\
  match attached_userId s with
  | Some u =>
      presenceCounts w' = table_detach u (presenceCounts w) /\
      db_users w' =
        (if or_zero (JSMap.get u (presenceCounts w)) - 1 <=? 0
         then JSONDB.update (VStr u) [("status", VStr "offline")] (db_users w)
         else db_users w) /\
      emitted w (Disconnect sid)
      = [mkEmission ToAll "online_users" (PUsers (online_list w'))]
  | None =>
      presenceCounts w' = presenceCounts w /\
      db_users w' = db_users w /\
      emitted w (Disconnect sid) = []
  end.
Proof.
  intros Hs w'.
  assert (Hw' : w' = snd (on_disconnect s (with_sockets (remove_socket sid) w))).
  { subst w'. unfold step. now rewrite Hs. }
  assert (Hout : forall l, outbox w' = (outbox w ++ l)%list ->
                           emitted w (Disconnect sid) = l).
  { intros l. apply emitted_of. }
  clearbody w'. subst w'. revert Hout.
  unfold on_disconnect, bind. cbn -[getOnlineUsersPublic].
  destruct (attached_userId s) as [u|]; cbn -[getOnlineUsersPublic].
  - unfold table_detach.
    destruct (or_zero (JSMap.get u (presenceCounts w)) - 1 <=? 0);
      destruct (truthy (data_currentChannel s));
      cbn -[getOnlineUsersPublic]; intros Hout;
      repeat split; try (now rewrite app_nil_r);
      apply Hout; reflexivity.
  - destruct (truthy (data_currentChannel s)); cbn; intros Hout;
      repeat split; try (now rewrite app_nil_r);
      apply Hout; now rewrite app_nil_r.
Qed.

Lemma step_connect_live (w : World) (sid : string) (s : Socket) :
  find_socket sid w = Some s -> step w (Connect sid) = w.
Proof. intros H. unfold step, is_live. now rewrite H. Qed.

(** A [connection] of a fresh socket. *)
Lemma step_connect_fresh (w : World) (sid : string) :
  find_socket sid w = None ->
  let w' := step w (Connect sid) in
  sockets w' = (sockets w ++ [new_socket sid])%list /\
  presenceCounts w' = presenceCounts w /\
  db_users w' = db_users w /\
  db_messages w' = db_messages w /\
  timers w' = timers w /\
  emitted w (Connect sid)
  = [mkEmission (ToSocket sid) "online_users" (PUsers (online_list w))].
Proof.
  intros H w'. subst w'.
  assert (E : step w (Connect sid)
              = exec (on_connection sid)
                     (with_sockets (fun ss => (ss ++ [new_socket sid])%list) w)).
  { unfold step, is_live. now rewrite H. }
  rewrite E. repeat split. apply emitted_of. rewrite E. reflexivity.
Qed.

(** The two message events touch the message file and the outbox only, and
    do nothing unless [may_modify] holds. *)
Lemma step_message (w : World) (e : event) (sid : string) (msgId : value) :
  (e = DeleteMessage sid msgId \/ exists newText, e = EditMessage sid msgId newText) ->
  let w' := step w e in
  sockets w' = sockets w /\
  presenceCounts w' = presenceCounts w /\
  db_users w' = db_users w /\
  timers w' = timers w /\
  (step w e = w \/
   exists s m em,
     find_socket sid w = Some s /\
     JSONDB.findOne [("_id", msgId)] (db_messages w) = Some m /\
     may_modify (Some m) s = true /\
     emitted w e = [em] /\
     target em = ToRoom (get_field m "channelId") /\
     (name em = "message_deleted" \/ name em = "message_updated")).
Proof.
  intros [->|[newText ->]] w'; subst w'; unfold step, is_live;
    destruct (find_socket sid w) as [s|] eqn:Hs; auto 6.
  - unfold exec, on_delete_message, bind, db_messages_findOne, this_socket.
    cbn -[may_modify]. rewrite Hs.
    destruct (JSONDB.findOne [("_id", msgId)] (db_messages w)) as [m|] eqn:Hm;
      cbn -[may_modify]; auto 6.
    destruct (may_modify (Some m) s) eqn:Hok; cbn; auto 6.
    repeat split. right. exists s, m. eexists. repeat split; eauto.
    apply emitted_of. unfold step, is_live. rewrite Hs.
    unfold exec, on_delete_message, bind, db_messages_findOne, this_socket.
    cbn -[may_modify]. rewrite Hs, Hm. cbn -[may_modify]. rewrite Hok.
    reflexivity. reflexivity. now left.
  - unfold exec, on_edit_message, bind, db_messages_findOne, this_socket.
    cbn -[may_modify]. rewrite Hs.
    destruct (JSONDB.findOne [("_id", msgId)] (db_messages w)) as [m|] eqn:Hm;
      cbn -[may_modify]; auto 6.
    destruct (may_modify (Some m) s) eqn:Hok; cbn; auto 6.
    repeat split. right. exists s, m. eexists. repeat split; eauto.
    apply emitted_of. unfold step, is_live. rewrite Hs.
    unfold exec, on_edit_message, bind, db_messages_findOne, this_socket.
    cbn -[may_modify]. rewrite Hs, Hm. cbn -[may_modify]. rewrite Hok.
    reflexivity. reflexivity. now right.
Qed.

(** The grace timer of a [disconnect] firing. *)
Lemma step_grace (w : World) :
  let w' := step w GraceElapsed in
  sockets w' = sockets w /\
  presenceCounts w' = presenceCounts w /\
  db_users w' = db_users w /\
  db_messages w' = db_messages w /\
  exists l, emitted w GraceElapsed = l /\ forallb is_room_users l = true.
Proof.
  intros w'. subst w'. unfold step.
  destruct (timers w) as [|channel rest] eqn:Ht.
  - repeat split. exists []. split; auto. apply emitted_same.
    unfold step. now rewrite Ht.
  - repeat split. eexists. split.
    + apply emitted_of. unfold step. rewrite Ht. reflexivity.
    + reflexivity.
Qed.

Lemma step_store_write (w : World) (users messages : JSONDB.t) :
  let w' := step w (StoreWrite users messages) in
  sockets w' = sockets w /\
  presenceCounts w' = presenceCounts w /\
  emitted w (StoreWrite users messages) = [].
Proof.
  repeat split. apply emitted_of. simpl. now rewrite app_nil_r.
Qed.

(* ===================================================================== *)
(** ** The invariant of the reachable worlds                              *)
(* ===================================================================== *)

Lemma attached_to_some u s p :
  attached_userId s = Some p -> attached_to u s = String.eqb p u.
Proof. intros H. unfold attached_to. now rewrite H. Qed.

Lemma attached_to_none u s : attached_userId s = None -> attached_to u s = false.
Proof. intros H. unfold attached_to. now rewrite H. Qed.

Lemma attached_nonempty s p : attached_userId s = Some p -> p <> "".
Proof.
  unfold attached_userId. destruct (data_userId s) as [x|]; [|discriminate].
  destruct (String.eqb_spec x ""); simpl; [discriminate|].
  intros [= <-]. assumption.
Qed.

Lemma attached_set_userId u next s :
  u <> "" -> attached_to u (set_userId next s) = String.eqb next u.
Proof.
  intros Hu. unfold attached_to, attached_userId, set_userId. simpl.
  destruct (String.eqb_spec next ""); simpl; auto.
  subst next. symmetry. now apply String.eqb_neq.
Qed.

Lemma map_id_modify sid f ss :
  (forall s, id (f s) = id s) -> map id (modify_socket sid f ss) = map id ss.
Proof.
  intros Hf. unfold modify_socket. rewrite map_map. apply map_ext.
  intros s. destruct (String.eqb (id s) sid); auto.
Qed.

Lemma Inv_init (users messages : JSONDB.t) : Inv (init_world users messages).
Proof.
  constructor; simpl.
  - constructor.
  - split; [constructor | discriminate].
  - reflexivity.
Qed.

Lemma Inv_connect (w : World) (sid : string) : Inv w -> Inv (step w (Connect sid)).
Proof.
  intros [Hids Htab Hcnt].
  destruct (find_socket sid w) as [s|] eqn:Hs.
  - rewrite (step_connect_live w sid s Hs). now constructor.
  - destruct (step_connect_fresh w sid Hs) as (S' & P' & _).
    constructor.
    + rewrite S', map_app. simpl. apply NoDup_snoc; auto.
      now apply find_none_not_in.
    + now rewrite P'.
    + intros u Hu. unfold count_of. rewrite P', S', count_snoc.
      fold (count_of w u). rewrite (Hcnt u Hu). simpl. lia.
Qed.

Lemma Inv_join (w : World) (sid : string) (userId channelId : value) :
  Inv w -> Inv (step w (Join sid userId channelId)).
Proof.
  intros Hinv.
  destruct (find_socket sid w) as [s|] eqn:Hs;
    [| now rewrite step_join_dead].
  destruct (JSONDB.findOne [("_id", userId)] (db_users w)) as [user|] eqn:Hu;
    [| now rewrite step_join_unknown].
  destruct Hinv as [Hids Htab Hcnt].
  pose proof (step_join_found w sid userId channelId s user Hs Hu) as H.
  cbv zeta in H. destruct H as (_ & _ & H).
  set (w' := step w (Join sid userId channelId)) in *.
  set (next := String_ userId) in *.
  destruct (differs (attached_userId s) next) eqn:Hd.
  - destruct H as (P' & S' & _).
    constructor.
    + rewrite map_id_att, S', <- map_id_att, map_id_modify by reflexivity.
      assumption.
    + rewrite P'. apply table_ok_attach.
      destruct (attached_userId s); auto using table_ok_detach.
    + intros u Hne. unfold count_of. rewrite P'.
      rewrite (attached_count_ext u _ _ S').
      rewrite (count_modify u sid _ _ s Hids Hs).
      rewrite attached_set_userId by assumption.
      rewrite <- (Hcnt u Hne). unfold count_of.
      destruct (attached_userId s) as [prev|] eqn:Hprev.
      * rewrite (attached_to_some u s prev Hprev).
        simpl in Hd. apply negb_true_iff, String.eqb_neq in Hd.
        destruct (String.eqb_spec next u) as [<-|Hnu].
        -- rewrite count_attach_same, count_detach_other by assumption.
           destruct (String.eqb_spec prev next); [contradiction|]. simpl. lia.
        -- rewrite count_attach_other by assumption.
           destruct (String.eqb_spec prev u) as [->|Hpu].
           ++ rewrite count_detach_same.
              assert (1 <= attached_count u (sockets w)).
              { apply (count_pos u _ s).
                - now apply find_some_id in Hs.
                - rewrite (attached_to_some u s u Hprev). apply String.eqb_refl. }
              fold (count_of w u). rewrite (Hcnt u Hne). simpl. lia.
           ++ rewrite count_detach_other by assumption. simpl. lia.
      * rewrite (attached_to_none u s Hprev).
        destruct (String.eqb_spec next u) as [<-|Hnu].
        -- rewrite count_attach_same. simpl. lia.
        -- rewrite count_attach_other by assumption. simpl. lia.
  - destruct H as (P' & _ & S' & _).
    constructor.
    + rewrite map_id_att, S', <- map_id_att. assumption.
    + now rewrite P'.
    + intros u Hne. unfold count_of. rewrite P'.
      rewrite (attached_count_ext u _ _ S'). now apply Hcnt.
Qed.

Lemma Inv_disconnect (w : World) (sid : string) : Inv w -> Inv (step w (Disconnect sid)).
Proof.
  intros Hinv.
  destruct (find_socket sid w) as [s|] eqn:Hs;
    [| now rewrite step_disconnect_dead].
  destruct Hinv as [Hids Htab Hcnt].
  destruct (step_disconnect_live w sid s Hs) as (S' & _ & _ & H).
  set (w' := step w (Disconnect sid)) in *.
  destruct (attached_userId s) as [p|] eqn:Hp.
  - destruct H as (P' & _).
    constructor.
    + rewrite S'. now apply NoDup_remove.
    + rewrite P'. now apply table_ok_detach.
    + intros u Hne. unfold count_of. rewrite P', S'.
      rewrite (count_remove u sid _ s Hids Hs).
      rewrite (attached_to_some u s p Hp).
      destruct (String.eqb_spec p u) as [->|Hpu].
      * rewrite count_detach_same.
        assert (1 <= attached_count u (sockets w)).
        { apply (count_pos u _ s).
          - now apply find_some_id in Hs.
          - rewrite (attached_to_some u s u Hp). apply String.eqb_refl. }
        fold (count_of w u). rewrite (Hcnt u Hne). simpl. lia.
      * rewrite count_detach_other by assumption.
        fold (count_of w u). rewrite (Hcnt u Hne). simpl. lia.
  - destruct H as (P' & _).
    constructor.
    + rewrite S'. now apply NoDup_remove.
    + now rewrite P'.
    + intros u Hne. unfold count_of. rewrite P', S'.
      rewrite (count_remove u sid _ s Hids Hs).
      rewrite (attached_to_none u s Hp).
      fold (count_of w u). rewrite (Hcnt u Hne). simpl. lia.
Qed.

Lemma Inv_same (w w' : World) :
  sockets w' = sockets w -> presenceCounts w' = presenceCounts w ->
  Inv w -> Inv w'.
Proof.
  intros S' P' [Hids Htab Hcnt]. constructor.
  - now rewrite S'.
  - now rewrite P'.
  - intros u Hu. unfold count_of. rewrite P', S'. now apply Hcnt.
Qed.

Lemma Inv_step (w : World) (e : event) : Inv w -> Inv (step w e).
Proof.
  intros Hinv. destruct e as [sid|sid u c|sid m|sid m t|sid| |us ms].
  - now apply Inv_connect.
  - now apply Inv_join.
  - destruct (step_message w (DeleteMessage sid m) sid m) as (S' & P' & _);
      [now left|]. now apply (Inv_same w).
  - destruct (step_message w (EditMessage sid m t) sid m) as (S' & P' & _);
      [right; now exists t|]. now apply (Inv_same w).
  - now apply Inv_disconnect.
  - destruct (step_grace w) as (S' & P' & _). now apply (Inv_same w).
  - destruct (step_store_write w us ms) as (S' & P' & _). now apply (Inv_same w).
Qed.

Lemma Inv_run (w : World) (evs : list event) : Inv w -> Inv (run w evs).
Proof.
  revert w. induction evs as [|e evs IH]; intros w Hinv; simpl; auto.
  apply IH. now apply Inv_step.
Qed.

Lemma Inv_reachable (users messages : JSONDB.t) (evs : list event) :
  Inv (reachable_from users messages evs).
Proof. apply Inv_run, Inv_init. Qed.

Lemma run_snoc (w : World) (evs : list event) (e : event) :
  run w (evs ++ [e]) = step (run w evs) e.
Proof. unfold run. now rewrite fold_left_app. Qed.

(* ===================================================================== *)
(** ** Properties of the join and disconnect handlers                     *)
(* ===================================================================== *)

Lemma room_users_not_broadcast (l : list Emission) :
  forallb is_room_users l = true -> existsb is_online_broadcast l = false.
Proof.
  induction l as [|em l IH]; simpl; auto.
  intros H. apply andb_true_iff in H as [Hem Hl]. rewrite (IH Hl).
  unfold is_room_users, is_online_broadcast in *.
  destruct (target em); try discriminate. reflexivity.
Qed.

(** C8. A [join] whose declared user id is not found in the user store is
    silently ignored: the presence table, the connection's attached user and
    room, its room subscriptions, the store and the outbox are what they were
    (the whole world is unchanged), and nothing is emitted. *)
Theorem join_unknown_user_ignored
        (w : World) (sid : string) (userId channelId : value) :
  JSONDB.findOne [("_id", userId)] (db_users w) = None ->
  step w (Join sid userId channelId) = w /\
  emitted w (Join sid userId channelId) = [].
Proof.
  intros H. pose proof (step_join_unknown w sid userId channelId H) as E.
  split; [exact E | now apply emitted_same].
Qed.

Lemma join_unknown_user_ignored_witness :
  step (step w_demo (Connect "s1")) (Join "s1" (VStr "nobody") (VStr "general"))
  = step w_demo (Connect "s1") /\
  emitted (step w_demo (Connect "s1")) (Join "s1" (VStr "nobody") (VStr "general")) = [].
Proof.
  apply (join_unknown_user_ignored (step w_demo (Connect "s1")) "s1"
           (VStr "nobody") (VStr "general")).
  reflexivity.
Defined.

(** C7. A [join] that declares the user id the connection already holds (the
    user being in the store) leaves the presence table and the user store
    (so every status field) unchanged and emits no [online_users] broadcast:
    all it emits are [room_users] events to rooms. *)
Theorem rejoin_same_user_keeps_presence
        (w : World) (sid : string) (userId channelId : value)
        (s : Socket) (user : obj) :
  find_socket sid w = Some s ->
  JSONDB.findOne [("_id", userId)] (db_users w) = Some user ->
  attached_userId s = Some (String_ userId) ->
  let w' := step w (Join sid userId channelId) in
  presenceCounts w' = presenceCounts w /\
  db_users w' = db_users w /\
  db_messages w' = db_messages w /\
  broadcasts_online w (Join sid userId channelId) = false /\
  forallb is_room_users (emitted w (Join sid userId channelId)) = true.
Proof.
  intros Hs Hu Ha w'.
  pose proof (step_join_found w sid userId channelId s user Hs Hu) as H.
  cbv zeta in H. fold w' in H. destruct H as (M' & _ & H).
  rewrite Ha in H. simpl in H. rewrite String.eqb_refl in H. simpl in H.
  destruct H as (P' & U' & _ & l & El & Fl).
  repeat split; auto.
  - unfold broadcasts_online. rewrite El. now apply room_users_not_broadcast.
  - now rewrite El.
Qed.

Lemma rejoin_same_user_keeps_presence_witness :
  let w := run w_demo [Connect "s1"; Join "s1" (VStr "u1") (VStr "general")] in
  let e := Join "s1" (VStr "u1") (VStr "random") in
  presenceCounts (step w e) = presenceCounts w /\
  db_users (step w e) = db_users w /\
  db_messages (step w e) = db_messages w /\
  broadcasts_online w e = false /\
  forallb is_room_users (emitted w e) = true.
Proof.
  intros w e.
  apply (rejoin_same_user_keeps_presence w "s1" (VStr "u1") (VStr "random")
           (mkSocket "s1" (Some u_ann) (Some "u1") (VStr "general")
                     [VStr "s1"; VStr "general"])
           [("_id", VStr "u1"); ("username", VStr "ann");
            ("password", VStr "$2a$10$annhash"); ("status", VStr "online")]);
    reflexivity.
Defined.




(** C10. A [delete_message] or [edit_message] event modifies the message
    store or emits something only if the message exists, the requesting
    connection has an attached user and that user's id equals the message's
    [userId]; for any other requester the event changes nothing (the message
    store in particular) and emits nothing. *)
Theorem message_events_need_owner
        (w : World) (e : event) (sid : string) (msgId : value) :
  (e = DeleteMessage sid msgId \/ exists newText, e = EditMessage sid msgId newText) ->
  ((db_messages (step w e) <> db_messages w \/ emitted w e <> []) ->
   authorized w sid msgId) /\
  (~ authorized w sid msgId -> step w e = w /\ emitted w e = []).
Proof.
  intros He.
  destruct (step_message w e sid msgId He) as (_ & _ & _ & _ & H).
  assert (Hcases : (step w e = w /\ emitted w e = []) \/ authorized w sid msgId).
  { destruct H as [E|(s & m & em & Hs & Hm & Hok & _)].
    - left. split; [exact E | now apply emitted_same].
    - right. unfold may_modify in Hok.
      destruct (data_user s) as [user|] eqn:Hdu; [|discriminate].
      exists s, m, user. repeat split; auto. now apply strict_eq_eq. }
  split.
  - intros Hch. destruct Hcases as [[E1 E2]|Ha]; auto.
    exfalso. destruct Hch as [Hm|Hem]; [apply Hm; now rewrite E1 | now apply Hem].
  - intros Hna. destruct Hcases as [Hsame|Ha]; [exact Hsame | contradiction].
Qed.

Lemma message_events_need_owner_witness :
  let w := run w_demo [Connect "s1"; Join "s1" (VStr "u1") (VStr "general")] in
  let e := DeleteMessage "s1" (VStr "m1") in
  ((db_messages (step w e) <> db_messages w \/ emitted w e <> []) ->
   authorized w "s1" (VStr "m1")) /\
  (~ authorized w "s1" (VStr "m1") -> step w e = w /\ emitted w e = []).
Proof.
  intros w e.
  apply (message_events_need_owner w e "s1" (VStr "m1")).
  left. reflexivity.
Defined.

(* ===================================================================== *)
(** ** Properties of the presence table along runs                        *)
(* ===================================================================== *)




Lemma get_attach_other k k' m :
  k <> k' -> JSMap.get k' (table_attach k m) = JSMap.get k' m.
Proof. intros H. unfold table_attach. now rewrite JSMapFacts.get_set_other. Qed.

Lemma get_detach_other k k' m :
  k <> k' -> JSMap.get k' (table_detach k m) = JSMap.get k' m.
Proof.
  intros H. unfold table_detach.
  destruct (or_zero (JSMap.get k m) - 1 <=? 0).
  - now rewrite JSMapFacts.get_delete_other.
  - now rewrite JSMapFacts.get_set_other.
Qed.

Lemma attached_has_count (w : World) (sid : string) (s : Socket) (u : string) :
  Inv w -> find_socket sid w = Some s -> attached_userId s = Some u ->
  1 <= count_of w u.
Proof.
  intros [_ _ Hcnt] Hs Ha.
  rewrite (Hcnt u (attached_nonempty s u Ha)).
  apply (count_pos u _ s).
  - now apply find_some_id in Hs.
  - rewrite (attached_to_some u s u Ha). apply String.eqb_refl.
Qed.

(** C6. When a connection attached to user [A] processes a [join] that
    declares a different user [B] found in the store, that one event takes
    exactly 1 off [A]'s presence count and adds exactly 1 to [B]'s, and no
    other entry of the presence table changes. *)
Theorem switch_user_moves_one_count
        (users messages : JSONDB.t) (evs : list event)
        (sid : string) (s : Socket) (A : string)
        (userId channelId : value) (user : obj) :
  let w := reachable_from users messages evs in
  let B := String_ userId in
  find_socket sid w = Some s ->
  attached_userId s = Some A ->
  JSONDB.findOne [("_id", userId)] (db_users w) = Some user ->
  B <> A ->
  let w' := step w (Join sid userId channelId) in
  count_of w' A = count_of w A - 1 /\
  count_of w' B = count_of w B + 1 /\
  (forall k, k <> A -> k <> B ->
             JSMap.get k (presenceCounts w') = JSMap.get k (presenceCounts w)).
Proof.
  intros w B Hs Ha Hu Hne w'.
  pose proof (Inv_reachable users messages evs) as Hinv. fold w in Hinv.
  pose proof (attached_has_count w sid s A Hinv Hs Ha) as HA.
  pose proof (step_join_found w sid userId channelId s user Hs Hu) as H.
  cbv zeta in H. fold w' B in H. destruct H as (_ & _ & H).
  rewrite Ha in H. simpl in H.
  destruct (String.eqb_spec A B) as [E|_]; [congruence|]. simpl in H.
  destruct H as (P' & _).
  unfold count_of in *. rewrite P'. repeat split.
  - rewrite count_attach_other by assumption. rewrite count_detach_same. lia.
  - rewrite count_attach_same. rewrite count_detach_other by congruence. lia.
  - intros k HkA HkB.
    rewrite get_attach_other by congruence. now rewrite get_detach_other by congruence.
Qed.

Lemma switch_user_moves_one_count_witness :
  let w := reachable_from [u_ann; u_bob] []
             [Connect "s1"; Join "s1" (VStr "u1") (VStr "general")] in
  let w' := step w (Join "s1" (VStr "u2") (VStr "general")) in
  count_of w' "u1" = count_of w "u1" - 1 /\
  count_of w' "u2" = count_of w "u2" + 1 /\
  (forall k, k <> "u1" -> k <> "u2" ->
             JSMap.get k (presenceCounts w') = JSMap.get k (presenceCounts w)).
Proof.
  intros w w'.
  apply (switch_user_moves_one_count [u_ann; u_bob] []
           [Connect "s1"; Join "s1" (VStr "u1") (VStr "general")]
           "s1"
           (mkSocket "s1" (Some u_ann) (Some "u1") (VStr "general")
                     [VStr "s1"; VStr "general"])
           "u1" (VStr "u2") (VStr "general") u_bob);
    try reflexivity.
  discriminate.
Defined.

(* ===================================================================== *)
(** ** The online list                                                    *)
(* ===================================================================== *)

Lemma in_filter_Boolean {A : Type} (x : A) (l : list (option A)) :
  In x (filter_Boolean l) <-> In (Some x) l.
Proof.
  induction l as [|[y|] l IH]; simpl; [tauto| |].
  - rewrite IH. split; intros [H|H]; auto; left; congruence.
  - rewrite IH. split; [auto | intros [H|H]; [discriminate | auto]].
Qed.

Lemma findOne_id (v : value) (data : JSONDB.t) (r : obj) :
  JSONDB.findOne [("_id", v)] data = Some r -> get_field r "_id" = v.
Proof.
  intros H. apply find_some in H as [_ H]. unfold JSONDB.matches in H.
  simpl in H. rewrite andb_true_r in H. now apply strict_eq_eq.
Qed.

Lemma get_field_omit_other (k k' : string) (o : obj) :
  k <> k' -> get_field (omit k o) k' = get_field o k'.
Proof.
  intros Hne. induction o as [|[k0 v0] o IH]; simpl; auto.
  destruct (String.eqb_spec k0 k) as [->|Hk]; simpl.
  - destruct (String.eqb_spec k k'); [contradiction | exact IH].
  - now rewrite IH.
Qed.

Lemma has_key_omit (k : string) (o : obj) : has_key (omit k o) k = false.
Proof.
  induction o as [|[k0 v0] o IH]; simpl; auto.
  destruct (String.eqb k0 k) eqn:E; simpl; auto.
  now rewrite E.
Qed.

(** Who is in the online list: the users of the store with a positive
    count. *)
Lemma online_list_spec (w : World) (p : obj) :
  In p (online_list w) <->
  exists k c r, In (k, c) (presenceCounts w) /\ 0 < c /\
                JSONDB.findOne [("_id", VStr k)] (db_users w) = Some r /\
                p = omit "password" r.
Proof.
  unfold online_list, getOnlineUsersPublic. simpl.
  rewrite in_filter_Boolean, in_map_iff. split.
  - intros (k & Hk & Hin). apply in_map_iff in Hin as ([k' c] & <- & Hin).
    apply filter_In in Hin as [Hin Hc]. simpl in *.
    destruct (JSONDB.findOne [("_id", VStr k')] (db_users w)) as [r|] eqn:Hr;
      [|discriminate].
    injection Hk as <-. exists k', c, r. repeat split; auto. lia.
  - intros (k & c & r & Hin & Hc & Hr & ->). exists k. rewrite Hr. split; auto.
    apply in_map_iff. exists (k, c). split; auto.
    apply filter_In. split; auto. simpl. lia.
Qed.

Lemma online_appears (w : World) (u : string) (r : obj) :
  NoDup (JSMap.keys (presenceCounts w)) ->
  JSONDB.findOne [("_id", VStr u)] (db_users w) = Some r ->
  (appears u (online_list w) <-> count_of w u > 0).
Proof.
  intros Hnd Hr. unfold appears, count_of. rewrite or_zero_get. split.
  - intros (p & Hin & Hid). apply online_list_spec in Hin
      as (k & c & r' & Hin & Hc & Hr' & ->).
    rewrite get_field_omit_other in Hid by discriminate.
    rewrite (findOne_id _ _ _ Hr') in Hid. injection Hid as ->.
    rewrite (JSMapFacts.in_get u c _ Hnd Hin). lia.
  - intros Hc. destruct (JSMap.get u (presenceCounts w)) as [c|] eqn:E; [|lia].
    exists (omit "password" r). split.
    + apply online_list_spec. exists u, c, r. repeat split; auto.
      * now apply JSMapFacts.get_in.
      * lia.
    + rewrite get_field_omit_other by discriminate. now apply (findOne_id _ _ _ Hr).
Qed.


(* ===================================================================== *)
(** ** When the online list is broadcast                                  *)
(* ===================================================================== *)

(** In a reachable world an event either leaves the presence table alone and
    broadcasts no online list, or changes some count and broadcasts it. *)
Lemma step_presence_cases (w : World) (e : event) :
  Inv w ->
  (presenceCounts (step w e) = presenceCounts w /\ broadcasts_online w e = false)
  \/ (broadcasts_online w e = true /\ count_changed w e).
Proof.
  intros Hinv. unfold broadcasts_online, count_changed.
  destruct e as [sid|sid uid c|sid m|sid m t|sid| |us ms].
  - left. destruct (find_socket sid w) as [s|] eqn:Hs.
    + pose proof (step_connect_live w sid s Hs) as E.
      rewrite (emitted_same _ _ E), E. auto.
    + destruct (step_connect_fresh w sid Hs) as (_ & P' & _ & _ & _ & E').
      rewrite E'. auto.
  - destruct (find_socket sid w) as [s|] eqn:Hs.
    2:{ left. pose proof (step_join_dead w sid uid c Hs) as E.
        rewrite (emitted_same _ _ E), E. auto. }
    destruct (JSONDB.findOne [("_id", uid)] (db_users w)) as [user|] eqn:Hu.
    2:{ left. pose proof (step_join_unknown w sid uid c Hu) as E.
        rewrite (emitted_same _ _ E), E. auto. }
    pose proof (step_join_found w sid uid c s user Hs Hu) as H.
    cbv zeta in H. destruct H as (_ & _ & H).
    destruct (differs (attached_userId s) (String_ uid)) eqn:Hd.
    + right. destruct H as (P' & _ & l & El & _). rewrite El. split; auto.
      exists (String_ uid). unfold count_of. rewrite P', count_attach_same.
      destruct (attached_userId s) as [prev|].
      * simpl in Hd. apply negb_true_iff, String.eqb_neq in Hd.
        rewrite count_detach_other by assumption. lia.
      * lia.
    + left. destruct H as (P' & _ & _ & l & El & Fl). rewrite El. split; auto.
      now apply room_users_not_broadcast.
  - left. destruct (step_message w (DeleteMessage sid m) sid m)
      as (_ & P' & _ & _ & [E|(s & m0 & em & _ & _ & _ & El & Ht & _)]);
      [now left | |].
    + rewrite (emitted_same _ _ E). auto.
    + rewrite El. simpl. unfold is_online_broadcast. rewrite Ht. auto.
  - left. destruct (step_message w (EditMessage sid m t) sid m)
      as (_ & P' & _ & _ & [E|(s & m0 & em & _ & _ & _ & El & Ht & _)]);
      [right; now exists t | |].
    + rewrite (emitted_same _ _ E). auto.
    + rewrite El. simpl. unfold is_online_broadcast. rewrite Ht. auto.
  - destruct (find_socket sid w) as [s|] eqn:Hs.
    2:{ left. pose proof (step_disconnect_dead w sid Hs) as E.
        rewrite (emitted_same _ _ E), E. auto. }
    destruct (step_disconnect_live w sid s Hs) as (_ & _ & _ & H).
    destruct (attached_userId s) as [u|] eqn:Ha.
    + right. destruct H as (P' & _ & El). rewrite El. split; auto.
      exists u. pose proof (attached_has_count w sid s u Hinv Hs Ha) as Hu.
      unfold count_of in *. rewrite P', count_detach_same. lia.
    + left. destruct H as (P' & _ & El). rewrite El. auto.
  - left. destruct (step_grace w) as (_ & P' & _ & _ & l & El & Fl).
    rewrite El. split; auto. now apply room_users_not_broadcast.
  - left. destruct (step_store_write w us ms) as (_ & P' & El).
    rewrite El. auto.
Qed.

Lemma transition_changes (w : World) (e : event) :
  transition w e -> count_changed w e.
Proof. intros [u [[H0 H1]|[H1 H0]]]; exists u; lia. Qed.

(** C2, as the code has it.  For every event of every run (the join and
    disconnect events in particular), the online list is broadcast to all
    connections if and only if some user's presence count changes during the
    event.  So every 0-to-1 and 1-to-0 transition triggers the broadcast, and
    so does a change between higher counts, which leaves the online set as it
    was. *)
Theorem online_broadcast_iff_count_changes
        (users messages : JSONDB.t) (evs : list event) (e : event) :
  let w := reachable_from users messages evs in
  (broadcasts_online w e = true <-> count_changed w e) /\
  (transition w e -> broadcasts_online w e = true).
Proof.
  intros w. pose proof (Inv_reachable users messages evs) as Hinv. fold w in Hinv.
  assert (Hiff : broadcasts_online w e = true <-> count_changed w e).
  { destruct (step_presence_cases w e Hinv) as [[P' Hb]|[Hb Hc]].
    - split; [rewrite Hb; discriminate|].
      intros [u Hu]. exfalso. apply Hu. unfold count_of. now rewrite P'.
    - tauto. }
  split; auto.
  intros Ht. apply Hiff. now apply transition_changes.
Qed.

(** C2 as stated fails: a second connection of a user who is already online
    raises the count from 1 to 2; the online list is broadcast although no
    count moved between 0 and 1. *)
Lemma online_broadcast_without_transition :
  let w := reachable_from [u_ann; u_bob] []
             [Connect "s1"; Connect "s2"; Join "s1" (VStr "u1") (VStr "general")] in
  let e := Join "s2" (VStr "u1") (VStr "general") in
  is_join_or_disconnect e = true /\
  ~ (broadcasts_online w e = true <-> transition w e).
Proof.
  intros w e. split; [reflexivity|].
  intros [Hto _].
  assert (Hb : broadcasts_online w e = true) by reflexivity.
  destruct (Hto Hb) as [u Hu].
  assert (Hbefore : count_of w u = if String.eqb "u1" u then 1 else 0).
  { unfold count_of.
    change (presenceCounts w) with [("u1", 1)]. cbn [JSMap.get].
    destruct (String.eqb "u1" u); reflexivity. }
  assert (Hafter : count_of (step w e) u = if String.eqb "u1" u then 2 else 0).
  { unfold count_of.
    change (presenceCounts (step w e)) with [("u1", 2)]. cbn [JSMap.get].
    destruct (String.eqb "u1" u); reflexivity. }
  rewrite Hbefore, Hafter in Hu.
  destruct (String.eqb "u1" u); lia.
Qed.

(* ===================================================================== *)
(** ** What the payloads carry                                            *)
(* ===================================================================== *)

(** The profiles of an online list never have a [password] property. *)
Lemma online_list_public (w : World) (p : obj) :
  In p (online_list w) -> has_key p "password" = false.
Proof.
  intros H. apply online_list_spec in H as (k & c & r & _ & _ & _ & ->).
  apply has_key_omit.
Qed.

(** C1 at a concrete run: ann registers (her record holds her password
    hash), connects and joins [general].  The [room_users] event sent to the
    room carries her stored record, password hash included; the
    [online_users] broadcast of the same event does not. *)
Theorem room_users_carries_password :
  let w := reachable_from [u_ann; u_bob] [] [Connect "s1"] in
  let e := Join "s1" (VStr "u1") (VStr "general") in
  emitted w e =
    [ mkEmission ToAll "online_users"
        (PUsers [[("_id", VStr "u1"); ("username", VStr "ann");
                  ("status", VStr "online")]]);
      mkEmission (ToRoom (VStr "general")) "room_users" (PUsers [u_ann]) ] /\
  has_key u_ann "password" = true /\
  get_field u_ann "password" = VStr "$2a$10$annhash".
Proof. vm_compute. repeat split. Qed.

Lemma is_room_users_name (em : Emission) :
  is_room_users em = true -> name em = "room_users".
Proof.
  unfold is_room_users. destruct (target em); try discriminate.
  apply String.eqb_eq.
Qed.

Lemma room_users_not_online (l : list Emission) (em : Emission) :
  forallb is_room_users l = true -> In em l -> name em <> "online_users".
Proof.
  intros Hl Hin. rewrite forallb_forall in Hl.
  rewrite (is_room_users_name em (Hl em Hin)). discriminate.
Qed.

(** Every [online_users] payload, to one connection or to all, is made of
    public profiles: none of its entries has a [password] property. *)
Lemma online_users_payloads_public (w : World) (e : event) (em : Emission) (p : obj) :
  In em (emitted w e) -> name em = "online_users" ->
  In p (payload_users em) -> has_key p "password" = false.
Proof.
  intros Hin Hname Hp.
  assert (Hlist : forall w0, em = mkEmission ToAll "online_users" (PUsers (online_list w0))
                             \/ em = mkEmission (ToSocket ""%string) "" (PUsers (online_list w0))
                             \/ payload_users em = online_list w0 ->
                             has_key p "password" = false).
  { intros w0 [->|[->|E]]; [| |rewrite E in Hp]; now apply (online_list_public w0). }
  destruct e as [sid|sid uid c|sid m|sid m t|sid| |us ms].
  - destruct (find_socket sid w) as [s|] eqn:Hs.
    + rewrite (emitted_same _ _ (step_connect_live w sid s Hs)) in Hin. contradiction.
    + destruct (step_connect_fresh w sid Hs) as (_ & _ & _ & _ & _ & E').
      rewrite E' in Hin. destruct Hin as [<-|[]].
      apply (Hlist w). right. right. reflexivity.
  - destruct (find_socket sid w) as [s|] eqn:Hs.
    2:{ rewrite (emitted_same _ _ (step_join_dead w sid uid c Hs)) in Hin.
        contradiction. }
    destruct (JSONDB.findOne [("_id", uid)] (db_users w)) as [user|] eqn:Hu.
    2:{ rewrite (emitted_same _ _ (step_join_unknown w sid uid c Hu)) in Hin.
        contradiction. }
    pose proof (step_join_found w sid uid c s user Hs Hu) as H.
    cbv zeta in H. destruct H as (_ & _ & H).
    destruct (differs (attached_userId s) (String_ uid)).
    + destruct H as (_ & _ & l & El & Fl). rewrite El in Hin.
      destruct Hin as [<-|Hin].
      * eapply Hlist. left. reflexivity.
      * exfalso. now apply (room_users_not_online l em Fl Hin).
    + destruct H as (_ & _ & _ & l & El & Fl). rewrite El in Hin.
      exfalso. now apply (room_users_not_online l em Fl Hin).
  - destruct (step_message w (DeleteMessage sid m) sid m)
      as (_ & _ & _ & _ & [E|(s & m0 & em' & _ & _ & _ & El & _ & Hn)]);
      [now left | |].
    + rewrite (emitted_same _ _ E) in Hin. contradiction.
    + rewrite El in Hin. destruct Hin as [<-|[]].
      destruct Hn as [Hn|Hn]; rewrite Hn in Hname; discriminate.
  - destruct (step_message w (EditMessage sid m t) sid m)
      as (_ & _ & _ & _ & [E|(s & m0 & em' & _ & _ & _ & El & _ & Hn)]);
      [right; now exists t | |].
    + rewrite (emitted_same _ _ E) in Hin. contradiction.
    + rewrite El in Hin. destruct Hin as [<-|[]].
      destruct Hn as [Hn|Hn]; rewrite Hn in Hname; discriminate.
  - destruct (find_socket sid w) as [s|] eqn:Hs.
    2:{ rewrite (emitted_same _ _ (step_disconnect_dead w sid Hs)) in Hin.
        contradiction. }
    destruct (step_disconnect_live w sid s Hs) as (_ & _ & _ & H).
    destruct (attached_userId s) as [u|].
    + destruct H as (_ & _ & El). rewrite El in Hin. destruct Hin as [<-|[]].
      eapply Hlist. left. reflexivity.
    + destruct H as (_ & _ & El). rewrite El in Hin. contradiction.
  - destruct (step_grace w) as (_ & _ & _ & _ & l & El & Fl). rewrite El in Hin.
    exfalso. now apply (room_users_not_online l em Fl Hin).
  - destruct (step_store_write w us ms) as (_ & _ & El). rewrite El in Hin.
    contradiction.
Qed.

(* ===================================================================== *)
(** ** Scenarios                                                          *)
(* ===================================================================== *)

(** Two tabs of ann, one of which then switches to bob, then the first tab
    closes: ann was attached twice and detached twice, bob attached once. *)
Example scenario_counts :
  let evs := [Connect "s1"; Connect "s2";
              Join "s1" (VStr "u1") (VStr "general");
              Join "s2" (VStr "u1") (VStr "general");
              Join "s2" (VStr "u2") (VStr "random");
              Disconnect "s1"] in
  let w0 := init_world [u_ann; u_bob] [] in
  let t0 := spec_init [u_ann; u_bob] in
  (attaches t0 evs "u1", detaches t0 evs "u1", count_of (run w0 evs) "u1") = (2, 2, 0) /\
  (attaches t0 evs "u2", detaches t0 evs "u2", count_of (run w0 evs) "u2") = (1, 0, 1) /\
  presenceCounts (run w0 evs) = [("u2", 1)] /\
  map (fun p => get_field p "_id") (online_list (run w0 evs)) = [VStr "u2"].
Proof. vm_compute. repeat split. Qed.

(** Attaching the same user twice and detaching once leaves the user online;
    the second detach takes the entry away and writes [offline]. *)
Example scenario_two_tabs :
  let w2 := run w_demo [Connect "s1"; Connect "s2";
                        Join "s1" (VStr "u1") VUndef; Join "s2" (VStr "u1") VUndef] in
  presenceCounts w2 = [("u1", 2)] /\
  presenceCounts (step w2 (Disconnect "s1")) = [("u1", 1)] /\
  presenceCounts (run w2 [Disconnect "s1"; Disconnect "s2"]) = [] /\
  get_field u_ann "status" = VStr "offline" /\
  map (fun r => get_field r "status") (db_users w2) = [VStr "online"; VStr "offline"] /\
  map (fun r => get_field r "status")
      (db_users (run w2 [Disconnect "s1"; Disconnect "s2"]))
  = [VStr "offline"; VStr "offline"].
Proof. vm_compute. repeat split. Qed.

(** Two connections of ann in one room: one entry in [room_users]. *)
Example scenario_room_dedup :
  let w := run w_demo [Connect "s1"; Connect "s2";
                       Join "s1" (VStr "u1") (VStr "general");
                       Join "s2" (VStr "u1") (VStr "general")] in
  map (fun p => get_field p "_id")
      (getUniqueUsers (fst (fetchSockets (VStr "general") w))) = [VStr "u1"] /\
  length (fst (fetchSockets (VStr "general") w)) = 2%nat.
Proof. vm_compute. repeat split. Qed.

(** The owner of a message deletes it; another user's request is ignored. *)
Example scenario_delete_message :
  let w := run w_demo [Connect "s1"; Connect "s2";
                       Join "s1" (VStr "u1") (VStr "general");
                       Join "s2" (VStr "u2") (VStr "general")] in
  db_messages (step w (DeleteMessage "s1" (VStr "m1"))) = [] /\
  emitted w (DeleteMessage "s1" (VStr "m1"))
  = [mkEmission (ToRoom (VStr "general")) "message_deleted" (PValue (VStr "m1"))] /\
  step w (DeleteMessage "s2" (VStr "m1")) = w /\
  step w (EditMessage "s2" (VStr "m1") (VStr "hacked")) = w /\
  map (fun m => get_field m "text")
      (db_messages (step w (EditMessage "s1" (VStr "m1") (VStr "hi")))) = [VStr "hi"].
Proof. vm_compute. repeat split. Qed.

(* ===================================================================== *)
(** ** [class JSONDB]: lookups, updates and deletions                     *)
(* ===================================================================== *)

Lemma matches_id (v : value) (item : obj) :
  JSONDB.matches [("_id", v)] item = strict_eq (get_field item "_id") v.
Proof. unfold JSONDB.matches. simpl. apply andb_true_r. Qed.

Lemma matches_spec (q item : obj) :
  JSONDB.matches q item = true <->
  forall k v, In (k, v) q -> get_field item k = v.
Proof.
  unfold JSONDB.matches. rewrite forallb_forall. split.
  - intros H k v Hin. apply strict_eq_eq. apply (H (k, v) Hin).
  - intros H [k v] Hin. simpl. rewrite (H k v Hin). apply strict_eq_refl.
Qed.

Lemma has_key_rev (o : obj) (k : string) : has_key (rev o) k = has_key o k.
Proof.
  unfold has_key. induction o as [|kv o IH]; simpl; auto.
  rewrite existsb_app, IH. simpl. rewrite orb_false_r. apply orb_comm.
Qed.

Lemma get_field_app (a b : obj) (k : string) :
  get_field (a ++ b)%list k = if has_key a k then get_field a k else get_field b k.
Proof.
  induction a as [|[k0 v0] a IH]; simpl; auto.
  destruct (String.eqb k0 k); simpl; auto.
Qed.

Lemma get_field_set_same (k : string) (v : value) (o : obj) :
  get_field (set_field k v o) k = v.
Proof.
  induction o as [|[k0 v0] o IH]; simpl.
  - now rewrite String.eqb_refl.
  - destruct (String.eqb k0 k) eqn:E; simpl.
    + now rewrite String.eqb_refl.
    + now rewrite E.
Qed.

Lemma get_field_set_other (k k' : string) (v : value) (o : obj) :
  k <> k' -> get_field (set_field k v o) k' = get_field o k'.
Proof.
  intros Hne. induction o as [|[k0 v0] o IH]; simpl.
  - destruct (String.eqb_spec k k'); [contradiction | reflexivity].
  - destruct (String.eqb_spec k0 k) as [->|Hk]; simpl.
    + destruct (String.eqb_spec k k'); [contradiction | reflexivity].
    + now rewrite IH.
Qed.

(** [{ ...a, ...b }] reads like [b] where [b] has the property (its last
    occurrence, if it is written twice) and like [a] elsewhere. *)
Lemma get_field_spread (a b : obj) (k : string) :
  get_field (spread a b) k
  = if has_key b k then get_field (rev b) k else get_field a k.
Proof.
  unfold spread. revert a. induction b as [|[k0 v0] b IH]; intros a; simpl; auto.
  rewrite IH, get_field_app, has_key_rev. simpl.
  destruct (has_key b k); simpl.
  - now rewrite orb_true_r.
  - rewrite orb_false_r. destruct (String.eqb_spec k0 k) as [->|Hk].
    + apply get_field_set_same.
    + now apply get_field_set_other.
Qed.

Lemma findIndex_lower {A : Type} (p : A -> bool) (l : list A) :
  findIndex p l = -1 \/ 0 <= findIndex p l.
Proof.
  destruct (existsb p l) eqn:E.
  - right. now apply findIndex_some in E.
  - left. now apply findIndex_none.
Qed.

(** [update] rewrites the first record with the id and nothing else. *)
Lemma update_cons (id : value) (u : obj) (x : obj) (rest : JSONDB.t) :
  JSONDB.update id u (x :: rest)
  = if strict_eq (get_field x "_id") id then spread x u :: rest
    else x :: JSONDB.update id u rest.
Proof.
  unfold JSONDB.update. cbn [findIndex].
  destruct (strict_eq (get_field x "_id") id); [reflexivity|].
  set (i := findIndex (fun item => strict_eq (get_field item "_id") id) rest).
  destruct (findIndex_lower (fun item => strict_eq (get_field item "_id") id) rest)
    as [H|H]; fold i in H.
  - rewrite H. reflexivity.
  - destruct (Z.ltb_spec i 0); [lia|].
    assert (E1 : (i + 1 =? -1) = false) by (apply Z.eqb_neq; lia).
    assert (E2 : (i =? -1) = false) by (apply Z.eqb_neq; lia).
    assert (E3 : (i + 1 =? 0) = false) by (apply Z.eqb_neq; lia).
    rewrite E1, E2. cbn [negb JSONDB.update_at]. rewrite E3.
    now replace (i + 1 - 1) with i by lia.
Qed.

Lemma update_result_spec (id : value) (u : obj) (data : JSONDB.t) :
  JSONDB_update_result id u data
  = option_map (fun item => spread item u) (JSONDB.findOne [("_id", id)] data).
Proof.
  unfold JSONDB_update_result, JSONDB.findOne.
  induction data as [|x rest IH]; [reflexivity|].
  cbn [findIndex find]. rewrite matches_id.
  destruct (strict_eq (get_field x "_id") id); [reflexivity|].
  set (i := findIndex (fun item => strict_eq (get_field item "_id") id) rest) in *.
  destruct (findIndex_lower (fun item => strict_eq (get_field item "_id") id) rest)
    as [H|H]; fold i in H.
  - rewrite H in *. exact IH.
  - destruct (Z.ltb_spec i 0); [lia|].
    assert (E1 : (i + 1 =? -1) = false) by (apply Z.eqb_neq; lia).
    assert (E2 : (i =? -1) = false) by (apply Z.eqb_neq; lia).
    assert (E3 : (i + 1 =? 0) = false) by (apply Z.eqb_neq; lia).
    rewrite E1. rewrite E2 in IH. cbn [negb JSONDB.update_at] in *. rewrite E3.
    replace (i + 1 - 1) with i by lia.
    replace (Z.to_nat (i + 1)) with (S (Z.to_nat i)) by lia.
    exact IH.
Qed.

Lemma findOne_cons (q : obj) (x : obj) (rest : JSONDB.t) :
  JSONDB.findOne q (x :: rest)
  = if JSONDB.matches q x then Some x else JSONDB.findOne q rest.
Proof. reflexivity. Qed.

Lemma findOne_in (q : obj) (data : JSONDB.t) (r : obj) :
  JSONDB.findOne q data = Some r -> In r data /\ JSONDB.matches q r = true.
Proof. apply find_some. Qed.

Lemma findOne_none (q : obj) (data : JSONDB.t) :
  JSONDB.findOne q data = None <-> forall r, In r data -> JSONDB.matches q r = false.
Proof.
  split.
  - intros H r Hin. apply (find_none _ _ H r Hin).
  - intros H. induction data as [|x rest IH]; [reflexivity|].
    rewrite findOne_cons, (H x (or_introl eq_refl)). apply IH.
    intros r Hin. apply H. now right.
Qed.

Lemma findOne_app (q : obj) (d l : JSONDB.t) :
  JSONDB.findOne q (d ++ l)%list
  = match JSONDB.findOne q d with
    | Some r => Some r
    | None => JSONDB.findOne q l
    end.
Proof.
  induction d as [|x d IH]; [reflexivity|].
  cbn [app]. rewrite !findOne_cons. destruct (JSONDB.matches q x); auto.
Qed.

Lemma update_length (id : value) (u : obj) (data : JSONDB.t) :
  length (JSONDB.update id u data) = length data.
Proof.
  induction data as [|x rest IH]; [reflexivity|].
  rewrite update_cons. destruct (strict_eq (get_field x "_id") id); simpl; auto.
Qed.

Lemma update_column (id : value) (u : obj) (data : JSONDB.t) (k : string) :
  has_key u k = false ->
  column k (JSONDB.update id u data) = column k data.
Proof.
  intros Hk. induction data as [|x rest IH]; [reflexivity|].
  rewrite update_cons. unfold column in *.
  destruct (strict_eq (get_field x "_id") id); simpl.
  - now rewrite get_field_spread, Hk.
  - now rewrite IH.
Qed.

Lemma update_findOne_same (id : value) (u : obj) (data : JSONDB.t) (item : obj) :
  has_key u "_id" = false ->
  JSONDB.findOne [("_id", id)] data = Some item ->
  JSONDB.findOne [("_id", id)] (JSONDB.update id u data) = Some (spread item u).
Proof.
  intros Hk. induction data as [|x rest IH]; [discriminate|].
  rewrite update_cons, findOne_cons, matches_id.
  destruct (strict_eq (get_field x "_id") id) eqn:E.
  - intros [= <-]. rewrite findOne_cons, matches_id, get_field_spread, Hk, E.
    reflexivity.
  - intros H. rewrite findOne_cons, matches_id, E. auto.
Qed.

Lemma update_findOne_other (id id' : value) (u : obj) (data : JSONDB.t) :
  has_key u "_id" = false -> id' <> id ->
  JSONDB.findOne [("_id", id')] (JSONDB.update id u data)
  = JSONDB.findOne [("_id", id')] data.
Proof.
  intros Hk Hne. induction data as [|x rest IH]; [reflexivity|].
  rewrite update_cons, findOne_cons, matches_id.
  destruct (strict_eq (get_field x "_id") id) eqn:E.
  - rewrite findOne_cons, matches_id, get_field_spread, Hk.
    apply strict_eq_eq in E. rewrite E.
    destruct (strict_eq id id') eqn:E'; auto.
    apply strict_eq_eq in E'. congruence.
  - rewrite findOne_cons, matches_id. now rewrite IH.
Qed.

Lemma update_missing (id : value) (u : obj) (data : JSONDB.t) :
  JSONDB.findOne [("_id", id)] data = None -> JSONDB.update id u data = data.
Proof.
  induction data as [|x rest IH]; [reflexivity|].
  rewrite update_cons, findOne_cons, matches_id.
  destruct (strict_eq (get_field x "_id") id); [discriminate|].
  intros H. now rewrite IH.
Qed.

Lemma delete_in (id : value) (data : JSONDB.t) (r : obj) :
  In r (JSONDB.delete id data) <-> In r data /\ get_field r "_id" <> id.
Proof.
  unfold JSONDB.delete. rewrite filter_In. split; intros [Hin H]; split; auto.
  - intros E. rewrite E, strict_eq_refl in H. discriminate.
  - destruct (strict_eq (get_field r "_id") id) eqn:E; auto.
    apply strict_eq_eq in E. contradiction.
Qed.

Lemma delete_findOne_same (id : value) (data : JSONDB.t) :
  JSONDB.findOne [("_id", id)] (JSONDB.delete id data) = None.
Proof.
  apply findOne_none. intros r Hin. apply delete_in in Hin as [_ Hne].
  rewrite matches_id. destruct (strict_eq (get_field r "_id") id) eqn:E; auto.
  apply strict_eq_eq in E. contradiction.
Qed.

Lemma delete_findOne_other (q : obj) (id : value) (data : JSONDB.t) (r : obj) :
  get_field r "_id" <> id ->
  JSONDB.findOne q data = Some r ->
  JSONDB.findOne q (JSONDB.delete id data) = Some r.
Proof.
  intros Hr. unfold JSONDB.delete.
  induction data as [|x rest IH]; [discriminate|].
  rewrite findOne_cons. cbn [filter].
  destruct (JSONDB.matches q x) eqn:Hm.
  - intros [= ->].
    destruct (strict_eq (get_field r "_id") id) eqn:E.
    + apply strict_eq_eq in E. contradiction.
    + cbn [negb]. now rewrite findOne_cons, Hm.
  - intros H. destruct (strict_eq (get_field x "_id") id); cbn [negb]; auto.
    rewrite findOne_cons, Hm. auto.
Qed.

Lemma filter_all {A : Type} (f : A -> bool) (l : list A) :
  forallb f l = true -> filter f l = l.
Proof.
  induction l as [|x l IH]; simpl; auto.
  intros H. apply andb_true_iff in H as [Hx Hl]. now rewrite Hx, IH.
Qed.

Lemma filter_length_lt {A : Type} (f : A -> bool) (l : list A) :
  forallb f l = false -> (length (filter f l) < length l)%nat.
Proof.
  induction l as [|x l IH]; simpl; [discriminate|].
  pose proof (filter_length_le f l).
  destruct (f x); simpl; intros H'; [specialize (IH H')|]; lia.
Qed.

Lemma delete_missing (id : value) (data : JSONDB.t) :
  JSONDB.findOne [("_id", id)] data = None -> JSONDB.delete id data = data.
Proof.
  intros H. apply filter_all, forallb_forall. intros r Hin.
  rewrite findOne_none in H. specialize (H r Hin). rewrite matches_id in H.
  now rewrite H.
Qed.

Lemma hd_error_filter {A : Type} (f : A -> bool) (l : list A) :
  hd_error (filter f l) = find f l.
Proof. induction l as [|x l IH]; simpl; auto. destruct (f x); auto. Qed.

(** X1. [create] followed by [findOne]: when the drawn uuid is new to the
    file and the item brings no [_id] of its own, the record is found under
    its uuid, it reads like the item on the item's properties, and every
    lookup that succeeded before gives the same record. *)
Theorem create_then_findOne
        (uuid : string) (now : value) (item : obj) (data : JSONDB.t) :
  has_key item "_id" = false ->
  JSONDB.findOne [("_id", VStr uuid)] data = None ->
  let data' := JSONDB_create uuid now item data in
  let newItem := JSONDB_newItem uuid now item in
  JSONDB.findOne [("_id", VStr uuid)] data' = Some newItem /\
  get_field newItem "_id" = VStr uuid /\
  (forall k, has_key item k = true -> get_field newItem k = get_field (rev item) k) /\
  (forall q r, JSONDB.findOne q data = Some r -> JSONDB.findOne q data' = Some r) /\
  length data' = S (length data).
Proof.
  intros Hk Hnew data' newItem.
  assert (Hid : get_field newItem "_id" = VStr uuid).
  { unfold newItem, JSONDB_newItem. rewrite get_field_spread, Hk. reflexivity. }
  repeat split.
  - unfold data', JSONDB_create. rewrite findOne_app, Hnew.
    fold newItem. rewrite findOne_cons, matches_id, Hid, strict_eq_refl. reflexivity.
  - exact Hid.
  - intros k Hik. unfold newItem, JSONDB_newItem. now rewrite get_field_spread, Hik.
  - intros q r Hr. unfold data', JSONDB_create. now rewrite findOne_app, Hr.
  - unfold data', JSONDB_create. rewrite length_app. simpl. lia.
Qed.

Lemma create_then_findOne_witness :
  let data' := JSONDB_create "c7" (VStr "2024-01-01T00:00:00.000Z")
                             [("name", VStr "general"); ("type", VStr "text")]
                             [u_ann; u_bob] in
  let newItem := JSONDB_newItem "c7" (VStr "2024-01-01T00:00:00.000Z")
                                [("name", VStr "general"); ("type", VStr "text")] in
  JSONDB.findOne [("_id", VStr "c7")] data' = Some newItem /\
  get_field newItem "_id" = VStr "c7" /\
  (forall k, has_key [("name", VStr "general"); ("type", VStr "text")] k = true ->
             get_field newItem k
             = get_field (rev [("name", VStr "general"); ("type", VStr "text")]) k) /\
  (forall q r, JSONDB.findOne q [u_ann; u_bob] = Some r ->
               JSONDB.findOne q data' = Some r) /\
  length data' = S (length [u_ann; u_bob]).
Proof.
  apply (create_then_findOne "c7" (VStr "2024-01-01T00:00:00.000Z")
           [("name", VStr "general"); ("type", VStr "text")] [u_ann; u_bob]);
    reflexivity.
Defined.

(** X2. [update] of a record that exists, with updates that do not touch
    [_id]: the call returns the record with the updates spread over it, a
    lookup by the id then finds exactly that, every property the updates do
    not name keeps its value in every record, lookups by other ids are what
    they were, and the file keeps its length. *)
Theorem update_then_findOne
        (id : value) (updates : obj) (data : JSONDB.t) (item : obj) :
  has_key updates "_id" = false ->
  JSONDB.findOne [("_id", id)] data = Some item ->
  let data' := JSONDB.update id updates data in
  JSONDB_update_result id updates data = Some (spread item updates) /\
  JSONDB.findOne [("_id", id)] data' = Some (spread item updates) /\
  (forall k, get_field (spread item updates) k
             = if has_key updates k then get_field (rev updates) k
               else get_field item k) /\
  (forall k, has_key updates k = false -> column k data' = column k data) /\
  (forall id', id' <> id ->
     JSONDB.findOne [("_id", id')] data' = JSONDB.findOne [("_id", id')] data) /\
  length data' = length data.
Proof.
  intros Hk Hitem data'. repeat split.
  - now rewrite update_result_spec, Hitem.
  - now apply update_findOne_same.
  - intros k. apply get_field_spread.
  - intros k Hu. now apply update_column.
  - intros id' Hne. now apply update_findOne_other.
  - apply update_length.
Qed.

Lemma update_then_findOne_witness :
  let data' := JSONDB.update (VStr "u1") [("status", VStr "online")] [u_ann; u_bob] in
  JSONDB_update_result (VStr "u1") [("status", VStr "online")] [u_ann; u_bob]
  = Some (spread u_ann [("status", VStr "online")]) /\
  JSONDB.findOne [("_id", VStr "u1")] data'
  = Some (spread u_ann [("status", VStr "online")]) /\
  (forall k, get_field (spread u_ann [("status", VStr "online")]) k
             = if has_key [("status", VStr "online")] k
               then get_field (rev [("status", VStr "online")]) k
               else get_field u_ann k) /\
  (forall k, has_key [("status", VStr "online")] k = false ->
             column k data' = column k [u_ann; u_bob]) /\
  (forall id', id' <> VStr "u1" ->
     JSONDB.findOne [("_id", id')] data'
     = JSONDB.findOne [("_id", id')] [u_ann; u_bob]) /\
  length data' = length [u_ann; u_bob].
Proof.
  apply (update_then_findOne (VStr "u1") [("status", VStr "online")]
           [u_ann; u_bob] u_ann); reflexivity.
Defined.

(** X3. An id that no record has: [update] returns [null] and [delete]
    returns [false], and both leave the file exactly as it is. *)
Theorem update_delete_unknown_id (id : value) (updates : obj) (data : JSONDB.t) :
  JSONDB.findOne [("_id", id)] data = None ->
  JSONDB_update_result id updates data = None /\
  JSONDB.update id updates data = data /\
  JSONDB_delete_result id data = false /\
  JSONDB.delete id data = data.
Proof.
  intros H. repeat split.
  - now rewrite update_result_spec, H.
  - now apply update_missing.
  - unfold JSONDB_delete_result. rewrite (delete_missing id data H).
    now rewrite Nat.eqb_refl.
  - now apply delete_missing.
Qed.

Lemma update_delete_unknown_id_witness :
  JSONDB_update_result (VStr "u9") [("status", VStr "online")] [u_ann; u_bob] = None /\
  JSONDB.update (VStr "u9") [("status", VStr "online")] [u_ann; u_bob] = [u_ann; u_bob] /\
  JSONDB_delete_result (VStr "u9") [u_ann; u_bob] = false /\
  JSONDB.delete (VStr "u9") [u_ann; u_bob] = [u_ann; u_bob].
Proof.
  apply (update_delete_unknown_id (VStr "u9") [("status", VStr "online")]
           [u_ann; u_bob]).
  reflexivity.
Defined.

(** X4. [delete(id)] removes every record with that id and no other: what
    stays are the records with another id, a lookup by the id finds nothing
    afterwards, a lookup that found a record with another id still finds it,
    and the call returns [true] exactly when some record had the id. *)
Theorem delete_removes_exactly (id : value) (data : JSONDB.t) :
  (forall r, In r (JSONDB.delete id data) <-> In r data /\ get_field r "_id" <> id) /\
  JSONDB.findOne [("_id", id)] (JSONDB.delete id data) = None /\
  (forall q r, get_field r "_id" <> id -> JSONDB.findOne q data = Some r ->
               JSONDB.findOne q (JSONDB.delete id data) = Some r) /\
  (JSONDB_delete_result id data = true <->
   exists r, JSONDB.findOne [("_id", id)] data = Some r).
Proof.
  split; [|split; [|split]].
  - intros r. apply delete_in.
  - apply delete_findOne_same.
  - intros q r. apply delete_findOne_other.
  - split.
    + intros H. destruct (JSONDB.findOne [("_id", id)] data) as [r|] eqn:E; eauto.
      unfold JSONDB_delete_result in H. rewrite (delete_missing id data E) in H.
      rewrite Nat.eqb_refl in H. discriminate.
    + intros [r Hr]. unfold JSONDB_delete_result, JSONDB.delete.
      apply negb_true_iff, Nat.eqb_neq.
      apply findOne_in in Hr as [Hin Hm]. rewrite matches_id in Hm.
      assert (Hf : forallb (fun item => negb (strict_eq (get_field item "_id") id)) data
                   = false).
      { destruct (forallb _ data) eqn:F; auto.
        rewrite forallb_forall in F. specialize (F r Hin). rewrite Hm in F.
        discriminate. }
      apply filter_length_lt in Hf. lia.
Qed.

(** X5. [findOne(query)] is the first record of [find(query)]; [find] keeps
    exactly the records that agree with the query on each of its keys; and
    the empty query (the default) keeps the whole file. *)
Theorem find_and_findOne (query : obj) (data : JSONDB.t) :
  JSONDB.findOne query data = hd_error (JSONDB_find query data) /\
  (forall r, In r (JSONDB_find query data) <->
             In r data /\ forall k v, In (k, v) query -> get_field r k = v) /\
  JSONDB_find [] data = data /\
  JSONDB.findOne [] data = hd_error data.
Proof.
  split; [|split; [|split]].
  - unfold JSONDB.findOne, JSONDB_find. symmetry. apply hd_error_filter.
  - intros r. unfold JSONDB_find. rewrite filter_In, matches_spec. tauto.
  - unfold JSONDB_find. now apply filter_all, forallb_forall.
  - destruct data; reflexivity.
Qed.

(* ===================================================================== *)
(** ** The HTTP routes of [server.js]                                     *)
(* ===================================================================== *)

Lemma omit_public_copy (u : obj) : public_copy u (omit "password" u).
Proof.
  split.
  - apply has_key_omit.
  - intros k Hk. apply get_field_omit_other. congruence.
Qed.

(** X6. [GET /api/users] answers 200 with one entry per stored user, in file
    order, each a copy of the record without its [password] and with every
    other property unchanged. *)
Theorem users_route_is_public (users : JSONDB.t) :
  exists l, get_api_users users = mkResponse 200 (JList l) /\
            Forall2 public_copy users l.
Proof.
  eexists. split; [reflexivity|].
  induction users as [|u users IH]; simpl; constructor; auto.
  apply omit_public_copy.
Qed.

Lemma slice_last_length {A : Type} (n : nat) (l : list A) :
  (length (slice_last n l) <= n)%nat.
Proof. unfold slice_last. rewrite length_skipn. lia. Qed.

Lemma slice_last_suffix {A : Type} (n : nat) (l : list A) :
  l = (firstn (length l - n) l ++ slice_last n l)%list.
Proof. unfold slice_last. now rewrite firstn_skipn. Qed.

(** X7. [GET /api/messages] answers with at most 50 messages: the newest
    ones of the requested channel, in file order (all of them when the
    channel has no more than 50), and nothing from another channel; without
    a channel id it answers the empty list. *)
Theorem messages_route_newest_50 (channelId : value) (allMessages : JSONDB.t) :
  exists l,
    get_api_messages channelId allMessages = mkResponse 200 (JList l) /\
    (length l <= 50)%nat /\
    (forall m, In m l -> In m allMessages /\ get_field m "channelId" = channelId) /\
    (truthy channelId = false -> l = []) /\
    (truthy channelId = true ->
     exists older,
       channel_messages channelId allMessages = (older ++ l)%list /\
       length older = (length (channel_messages channelId allMessages) - 50)%nat).
Proof.
  unfold get_api_messages. fold (channel_messages channelId allMessages).
  eexists. split; [reflexivity|]. split; [apply slice_last_length|].
  destruct (truthy channelId).
  - split; [|split; [discriminate|]].
    + intros m Hin.
      assert (Hc : In m (channel_messages channelId allMessages)).
      { rewrite (slice_last_suffix 50 (channel_messages channelId allMessages)).
        apply in_or_app. now right. }
      apply filter_In in Hc as [Hm Hc]. split; auto. now apply strict_eq_eq.
    + intros _. exists (firstn (length (channel_messages channelId allMessages) - 50)
                               (channel_messages channelId allMessages)).
      split; [apply slice_last_suffix|].
      rewrite length_firstn. lia.
  - split; [intros m []|]. split; [reflexivity | discriminate].
Qed.

Lemma column_app (k : string) (a b : JSONDB.t) :
  column k (a ++ b)%list = (column k a ++ column k b)%list.
Proof. apply map_app. Qed.

Lemma NoDup_map_filter {A B : Type} (f : A -> B) (g : A -> bool) (l : list A) :
  NoDup (map f l) -> NoDup (map f (filter g l)).
Proof.
  induction l as [|x l IH]; simpl; auto.
  intros H. inversion H as [|? ? Hnot Hnd]; subst.
  destruct (g x); simpl; auto.
  constructor; auto. intros Hin. apply Hnot.
  apply in_map_iff in Hin as [y [Hy Hin]]. apply filter_In in Hin as [Hin _].
  apply in_map_iff. eauto.
Qed.

Lemma NoDup_map_inj {A B : Type} (f : A -> B) (l : list A) (a b : A) :
  NoDup (map f l) -> In a l -> In b l -> f a = f b -> a = b.
Proof.
  induction l as [|x l IH]; simpl; [tauto|].
  intros H Ha Hb E. inversion H as [|? ? Hnot Hnd]; subst.
  destruct Ha as [->|Ha], Hb as [->|Hb]; auto.
  - exfalso. apply Hnot. rewrite E. now apply in_map.
  - exfalso. apply Hnot. rewrite <- E. now apply in_map.
Qed.

Lemma findOne_none_column (k : string) (v : value) (data : JSONDB.t) :
  JSONDB.findOne [(k, v)] data = None -> ~ In v (column k data).
Proof.
  intros H Hin. apply in_map_iff in Hin as [r [Hr Hin]].
  rewrite findOne_none in H. specialize (H r Hin).
  unfold JSONDB.matches in H. simpl in H. rewrite Hr, strict_eq_refl in H.
  discriminate.
Qed.

(** X8. The three channel routes keep channel names unique, for names sent
    as strings: if no two channels of the file share a name, none do after
    [GET /api/channels] (which may create [general]), after a
    [POST /api/channels] whose [name] is a string, and after
    [DELETE /api/channels/:id]. *)
Theorem channel_names_stay_unique
        (n : string) (createdBy : value) (id uuid : string) (now : value)
        (channels : JSONDB.t) :
  unique_on "name" channels ->
  unique_on "name" (snd (get_api_channels uuid now channels)) /\
  unique_on "name"
    (snd (fst (post_api_channels (VStr n) createdBy uuid now channels))) /\
  unique_on "name" (snd (fst (delete_api_channels id channels))).
Proof.
  intros Hu. split; [|split].
  - unfold get_api_channels. destruct channels as [|c channels]; simpl; auto.
    unfold unique_on. simpl. constructor; [tauto | constructor].
  - unfold post_api_channels. destruct (truthy (VStr n)); cbn [negb]; auto.
    destruct (JSONDB.findOne [("name", VStr n)] channels) eqn:E; cbn [fst snd]; auto.
    unfold unique_on, JSONDB_create. rewrite column_app.
    apply NoDup_snoc; auto. now apply findOne_none_column.
  - unfold delete_api_channels.
    destruct (JSONDB.findOne [("_id", VStr id)] channels) as [channel|]; simpl; auto.
    destruct (strict_eq (get_field channel "name") (VStr "general")); simpl; auto.
    unfold unique_on, column, JSONDB.delete. now apply NoDup_map_filter.
Qed.

Lemma channel_names_stay_unique_witness :
  let channels := [[("_id", VStr "c1"); ("name", VStr "general"); ("type", VStr "text")];
                   [("_id", VStr "c2"); ("name", VStr "random"); ("type", VStr "text")]] in
  unique_on "name" (snd (get_api_channels "c3" VNull channels)) /\
  unique_on "name"
    (snd (fst (post_api_channels (VStr "music") (VStr "u1") "c3" VNull channels))) /\
  unique_on "name" (snd (fst (delete_api_channels "c2" channels))).
Proof.
  intros channels.
  apply (channel_names_stay_unique "music" (VStr "u1") "c2" "c3" VNull channels).
  unfold unique_on, channels. simpl.
  constructor; [intros [H|[]]; discriminate|].
  constructor; [intros []|constructor].
Defined.

(** X9. [DELETE /api/channels/:id], channel ids being unique: a refused
    request (404 for an unknown id, 403 for [general]) changes nothing and
    broadcasts nothing; an accepted one answers 200, leaves no channel with
    that id, keeps every other channel, and broadcasts [channel_deleted] with
    the id.  A channel named [general] is in the file afterwards whenever it
    was before. *)
Theorem delete_channel_spares_general (id : string) (channels : JSONDB.t) :
  unique_on "_id" channels ->
  let res := fst (fst (delete_api_channels id channels)) in
  let channels' := snd (fst (delete_api_channels id channels)) in
  let sent := snd (delete_api_channels id channels) in
  (forall c, In c channels -> get_field c "name" = VStr "general" -> In c channels') /\
  (status res <> 200 -> channels' = channels /\ sent = None) /\
  (status res = 200 ->
   JSONDB.findOne [("_id", VStr id)] channels' = None /\
   (forall c, In c channels -> get_field c "_id" <> VStr id -> In c channels') /\
   sent = Some (channel_deleted (VStr id))) /\
  (status res = 200 <->
   exists c, JSONDB.findOne [("_id", VStr id)] channels = Some c /\
             get_field c "name" <> VStr "general").
Proof.
  intros Hu. unfold delete_api_channels.
  destruct (JSONDB.findOne [("_id", VStr id)] channels) as [channel|] eqn:E; simpl.
  2:{ split; [auto|]. split; [auto|]. split; [discriminate|].
      split; [discriminate | intros [c [Hc _]]; discriminate]. }
  destruct (strict_eq (get_field channel "name") (VStr "general")) eqn:G; simpl.
  - apply strict_eq_eq in G.
    split; [auto|]. split; [auto|]. split; [discriminate|].
    split; [discriminate|]. intros [c [[= <-] Hc]]. contradiction.
  - assert (Hname : get_field channel "name" <> VStr "general").
    { intros H. rewrite H in G. discriminate. }
    split; [|split; [|split; [|split]]].
    + intros c Hin Hc. apply delete_in. split; auto.
      intros Hid. apply findOne_in in E as [Hch Hm].
      rewrite matches_id in Hm. apply strict_eq_eq in Hm.
      assert (c = channel).
      { apply (NoDup_map_inj (fun r => get_field r "_id") channels); auto.
        congruence. }
      congruence.
    + intros H. now contradiction H.
    + intros _. split; [apply delete_findOne_same|]. split; auto.
      intros c Hin Hid. apply delete_in. auto.
    + eauto.
    + reflexivity.
Qed.

Lemma delete_channel_spares_general_witness :
  let channels := [[("_id", VStr "c1"); ("name", VStr "general"); ("type", VStr "text")];
                   [("_id", VStr "c2"); ("name", VStr "random"); ("type", VStr "text")]] in
  let res := fst (fst (delete_api_channels "c2" channels)) in
  let channels' := snd (fst (delete_api_channels "c2" channels)) in
  let sent := snd (delete_api_channels "c2" channels) in
  (forall c, In c channels -> get_field c "name" = VStr "general" -> In c channels') /\
  (status res <> 200 -> channels' = channels /\ sent = None) /\
  (status res = 200 ->
   JSONDB.findOne [("_id", VStr "c2")] channels' = None /\
   (forall c, In c channels -> get_field c "_id" <> VStr "c2" -> In c channels') /\
   sent = Some (channel_deleted (VStr "c2"))) /\
  (status res = 200 <->
   exists c, JSONDB.findOne [("_id", VStr "c2")] channels = Some c /\
             get_field c "name" <> VStr "general").
Proof.
  intros channels.
  apply (delete_channel_spares_general "c2" channels).
  unfold unique_on, channels. simpl.
  constructor; [intros [H|[]]; discriminate|].
  constructor; [intros []|constructor].
Defined.

(** X10. [GET /api/channels] never answers an empty list: on an empty file
    it first creates the channel [general] of type [text] and answers with
    it; on any other file it answers the file and writes nothing.  The
    answer is always the file as the request leaves it. *)
Theorem channels_route_never_empty (uuid : string) (now : value) (channels : JSONDB.t) :
  let res := fst (get_api_channels uuid now channels) in
  let channels' := snd (get_api_channels uuid now channels) in
  res = mkResponse 200 (JList channels') /\
  channels' <> [] /\
  (channels <> [] -> channels' = channels) /\
  (channels = [] ->
   exists c, channels' = [c] /\ get_field c "name" = VStr "general" /\
             get_field c "type" = VStr "text" /\ get_field c "_id" = VStr uuid).
Proof.
  unfold get_api_channels. destruct channels as [|c channels]; simpl.
  - split; [reflexivity|]. split; [discriminate|]. split; [congruence|].
    intros _. eexists. repeat split.
  - split; [reflexivity|]. split; [discriminate|]. split; [reflexivity | discriminate].
Qed.

(** X21. Record ids stay unique under the three writers of [JSONDB]: if no
    two records of a file share an [_id], none do after a [create] whose
    uuid is new to the file (the item bringing no [_id] of its own), after
    an [update] that does not write [_id], and after a [delete]. *)
Theorem ids_stay_unique
        (uuid : string) (now : value) (item updates : obj) (id id' : value)
        (data : JSONDB.t) :
  unique_on "_id" data ->
  has_key item "_id" = false ->
  JSONDB.findOne [("_id", VStr uuid)] data = None ->
  has_key updates "_id" = false ->
  unique_on "_id" (JSONDB_create uuid now item data) /\
  unique_on "_id" (JSONDB.update id updates data) /\
  unique_on "_id" (JSONDB.delete id' data).
Proof.
  intros Hu Hi Hnew Hup. split; [|split].
  - unfold unique_on, JSONDB_create. rewrite column_app. apply NoDup_snoc; auto.
    assert (E : get_field (JSONDB_newItem uuid now item) "_id" = VStr uuid).
    { unfold JSONDB_newItem. rewrite get_field_spread, Hi. reflexivity. }
    unfold column at 1. cbn [map]. rewrite E. now apply findOne_none_column.
  - unfold unique_on. now rewrite update_column.
  - unfold unique_on, column, JSONDB.delete. now apply NoDup_map_filter.
Qed.

Lemma ids_stay_unique_witness :
  unique_on "_id" (JSONDB_create "u3" VNull [("username", VStr "eve")] [u_ann; u_bob]) /\
  unique_on "_id" (JSONDB.update (VStr "u1") [("status", VStr "online")] [u_ann; u_bob]) /\
  unique_on "_id" (JSONDB.delete (VStr "u2") [u_ann; u_bob]).
Proof.
  apply (ids_stay_unique "u3" VNull [("username", VStr "eve")]
           [("status", VStr "online")] (VStr "u1") (VStr "u2") [u_ann; u_bob]);
    try reflexivity.
  unfold unique_on. simpl.
  constructor; [intros [H|[]]; discriminate|].
  constructor; [intros []|constructor].
Defined.

(* ===================================================================== *)
(** ** Rooms and profiles of the connections                              *)
(* ===================================================================== *)

Lemma modify_modify (sid : string) (f g : Socket -> Socket) (ss : list Socket) :
  (forall s, id (g s) = id s) ->
  modify_socket sid f (modify_socket sid g ss)
  = modify_socket sid (fun s => f (g s)) ss.
Proof.
  intros Hg. unfold modify_socket. rewrite map_map. apply map_ext.
  intros s. destruct (String.eqb (id s) sid) eqn:E.
  - now rewrite Hg, E.
  - now rewrite E.
Qed.

Lemma modify_ext (sid : string) (f g : Socket -> Socket) (ss : list Socket) :
  (forall s, f s = g s) -> modify_socket sid f ss = modify_socket sid g ss.
Proof.
  intros H. unfold modify_socket. apply map_ext.
  intros s. destruct (String.eqb (id s) sid); auto.
Qed.

Lemma modify_same (sid : string) (f : Socket -> Socket) (ss : list Socket) :
  (forall s, f s = s) -> modify_socket sid f ss = ss.
Proof.
  intros H. unfold modify_socket. rewrite <- (map_id ss) at 2. apply map_ext.
  intros s. destruct (String.eqb (id s) sid); auto.
Qed.

Lemma filter_filter {A : Type} (f g : A -> bool) (l : list A) :
  filter f (filter g l) = filter (fun x => g x && f x) l.
Proof.
  induction l as [|x l IH]; simpl; auto.
  destruct (g x); simpl; [destruct (f x)|]; now rewrite IH.
Qed.

Lemma leave_rooms_nil (s : Socket) : leave_rooms [] s = s.
Proof.
  unfold leave_rooms. simpl. rewrite filter_all by (now apply forallb_forall).
  now destruct s.
Qed.

Lemma leave_rooms_cons (room : value) (L : list value) (s : Socket) :
  leave_rooms L
    (mkSocket (id s) (data_user s) (data_userId s) (data_currentChannel s)
              (filter (fun r => negb (strict_eq room r)) (rooms s)))
  = leave_rooms (room :: L) s.
Proof.
  unfold leave_rooms. simpl. rewrite filter_filter. f_equal.
  apply filter_ext. intros r. now rewrite negb_orb.
Qed.

(** The loop of the [join] handler over the rooms of the socket: it leaves
    every room but the socket's own. *)
Lemma leave_loop_sockets (sid : string) (l : list value) (w : World) :
  sockets
    (snd (for_each l (fun room =>
            when (negb (strict_eq room (VStr sid))) (
              socket_leave sid room ;;
              sockets <- fetchSockets room ;;
              emit (ToRoom room) "room_users" (PUsers (getUniqueUsers sockets))))
          w))
  = modify_socket sid
      (leave_rooms (filter (fun room => negb (strict_eq room (VStr sid))) l))
      (sockets w).
Proof.
  revert w. induction l as [|room l IH]; intros w.
  - cbn [for_each filter]. unfold ret. cbn [snd].
    symmetry. apply modify_same, leave_rooms_nil.
  - cbn [for_each filter]. unfold bind at 1. rewrite IH. clear IH.
    destruct (negb (strict_eq room (VStr sid))); cbn -[modify_socket].
    + rewrite modify_modify by reflexivity. apply modify_ext.
      intros s. apply leave_rooms_cons.
    + reflexivity.
Qed.

Lemma join_rooms_block_sockets (sid : string) (channelId : value) (w : World)
      (s : Socket) :
  find_socket sid w = Some s ->
  sockets (snd (join_rooms_block sid channelId w))
  = modify_socket sid
      (room_update channelId
         (filter (fun room => negb (strict_eq room (VStr sid))) (rooms s)))
      (sockets w).
Proof.
  intros Hs.
  set (cc := fun s0 : Socket =>
               mkSocket (id s0) (data_user s0) (data_userId s0) channelId (rooms s0)).
  set (w1 := with_sockets (modify_socket sid cc) w).
  assert (Hs1 : find_socket sid w1 = Some (cc s)).
  { unfold find_socket, w1. simpl. rewrite find_modify_same by reflexivity.
    unfold find_socket in Hs. now rewrite Hs. }
  set (L := filter (fun room => negb (strict_eq room (VStr sid))) (rooms s)).
  set (w2 := snd (for_each (rooms s) (fun room =>
            when (negb (strict_eq room (VStr sid))) (
              socket_leave sid room ;;
              sockets <- fetchSockets room ;;
              emit (ToRoom room) "room_users" (PUsers (getUniqueUsers sockets))))
          w1)).
  assert (E : snd (join_rooms_block sid channelId w)
              = snd (when (truthy channelId) (
                       socket_join sid channelId ;;
                       sockets <- fetchSockets channelId ;;
                       emit (ToRoom channelId) "room_users"
                            (PUsers (getUniqueUsers sockets))) w2)).
  { unfold join_rooms_block, bind at 1 2 3. unfold set_data_currentChannel.
    cbn [fst snd]. fold cc. fold w1. unfold this_socket. cbn [fst snd].
    rewrite Hs1. reflexivity. }
  rewrite E.
  assert (S2 : sockets w2 = modify_socket sid (fun x => leave_rooms L (cc x)) (sockets w)).
  { unfold w2. rewrite leave_loop_sockets. fold L. unfold w1. simpl.
    now rewrite modify_modify by reflexivity. }
  destruct (truthy channelId) eqn:T; cbn -[modify_socket].
  - rewrite S2, modify_modify by reflexivity. apply modify_ext.
    intros x. unfold room_update, leave_rooms, cc, in_room. simpl. now rewrite T.
  - rewrite S2. apply modify_ext.
    intros x. unfold room_update, leave_rooms, cc. simpl. now rewrite T.
Qed.

Lemma step_join_unfold (w : World) (sid : string) (userId channelId : value)
      (s : Socket) (user : obj) :
  find_socket sid w = Some s ->
  JSONDB.findOne [("_id", userId)] (db_users w) = Some user ->
  step w (Join sid userId channelId)
  = snd (join_rooms_block sid channelId
           (snd (join_presence_block sid userId (snd (set_data_user sid user w))))).
Proof.
  intros Hs Hu. unfold step, is_live. rewrite Hs. unfold exec.
  rewrite on_join_blocks, Hu. reflexivity.
Qed.

(** The sockets after a successful [join]. *)
Lemma step_join_sockets (w : World) (sid : string) (userId channelId : value)
      (s : Socket) (user : obj) :
  find_socket sid w = Some s ->
  JSONDB.findOne [("_id", userId)] (db_users w) = Some user ->
  sockets (step w (Join sid userId channelId))
  = modify_socket sid
      (joined user
         (if differs (attached_userId s) (String_ userId)
          then Some (String_ userId) else None)
         channelId
         (filter (fun room => negb (strict_eq room (VStr sid))) (rooms s)))
      (sockets w).
Proof.
  intros Hs Hu. rewrite (step_join_unfold w sid userId channelId s user Hs Hu).
  set (f := fun s0 : Socket =>
              mkSocket (id s0) (Some user) (data_userId s0)
                       (data_currentChannel s0) (rooms s0)).
  set (w1 := snd (set_data_user sid user w)).
  assert (S1 : sockets w1 = modify_socket sid f (sockets w)) by reflexivity.
  assert (Hs1 : find_socket sid w1 = Some (f s)).
  { unfold find_socket. rewrite S1, find_modify_same by reflexivity.
    unfold find_socket in Hs. now rewrite Hs. }
  change (attached_userId s) with (attached_userId (f s)).
  destruct (differs (attached_userId (f s)) (String_ userId)) eqn:Hd.
  - destruct (join_presence_switch sid userId w1 (f s) Hs1 Hd) as (_ & S2 & _).
    unfold exec in S2.
    set (w2 := snd (join_presence_block sid userId w1)) in *.
    assert (Hs2 : find_socket sid w2 = Some (set_userId (String_ userId) (f s))).
    { unfold find_socket. rewrite S2, find_modify_same by reflexivity.
      unfold find_socket in Hs1. now rewrite Hs1. }
    rewrite (join_rooms_block_sockets sid channelId w2 _ Hs2), S2, S1.
    rewrite !modify_modify by reflexivity. apply modify_ext. reflexivity.
  - rewrite (join_presence_same sid userId w1 (f s) Hs1 Hd). cbn [snd].
    rewrite (join_rooms_block_sockets sid channelId w1 _ Hs1), S1.
    rewrite modify_modify by reflexivity. apply modify_ext. reflexivity.
Qed.

(** The user file after the presence part of a [join] that attaches. *)
Lemma join_presence_users (sid : string) (userId : value) (w : World) (s : Socket) :
  find_socket sid w = Some s ->
  differs (attached_userId s) (String_ userId) = true ->
  db_users (exec (join_presence_block sid userId) w) =
    let t1 := match attached_userId s with
              | Some prev => table_detach prev (presenceCounts w)
              | None => presenceCounts w
              end in
    let users1 := match attached_userId s with
                  | Some prev =>
                      if or_zero (JSMap.get prev (presenceCounts w)) - 1 <=? 0
                      then JSONDB.update (VStr prev) [("status", VStr "offline")]
                                         (db_users w)
                      else db_users w
                  | None => db_users w
                  end in
    if or_zero (JSMap.get (String_ userId) t1) + 1 =? 1
    then JSONDB.update (VStr (String_ userId)) [("status", VStr "online")] users1
    else users1.
Proof.
  intros Hs Hd. unfold exec, join_presence_block, bind, this_socket.
  cbn -[getOnlineUsersPublic]. rewrite Hs, Hd. cbn -[getOnlineUsersPublic].
  destruct (attached_userId s) as [prev|]; cbn -[getOnlineUsersPublic].
  - unfold table_detach.
    destruct (or_zero (JSMap.get prev (presenceCounts w)) - 1 <=? 0);
      cbn -[getOnlineUsersPublic];
      match goal with
      | |- context [when ?b ?c ?w0] => destruct b; cbn -[getOnlineUsersPublic]
      end; reflexivity.
  - match goal with
    | |- context [when ?b ?c ?w0] => destruct b; cbn -[getOnlineUsersPublic]
    end; reflexivity.
Qed.

Lemma step_join_users (w : World) (sid : string) (userId channelId : value)
      (s : Socket) (user : obj) :
  find_socket sid w = Some s ->
  JSONDB.findOne [("_id", userId)] (db_users w) = Some user ->
  differs (attached_userId s) (String_ userId) = true ->
  db_users (step w (Join sid userId channelId)) =
    let t1 := match attached_userId s with
              | Some prev => table_detach prev (presenceCounts w)
              | None => presenceCounts w
              end in
    let users1 := match attached_userId s with
                  | Some prev =>
                      if or_zero (JSMap.get prev (presenceCounts w)) - 1 <=? 0
                      then JSONDB.update (VStr prev) [("status", VStr "offline")]
                                         (db_users w)
                      else db_users w
                  | None => db_users w
                  end in
    if or_zero (JSMap.get (String_ userId) t1) + 1 =? 1
    then JSONDB.update (VStr (String_ userId)) [("status", VStr "online")] users1
    else users1.
Proof.
  intros Hs Hu Hd. rewrite (step_join_unfold w sid userId channelId s user Hs Hu).
  set (f := fun s0 : Socket =>
              mkSocket (id s0) (Some user) (data_userId s0)
                       (data_currentChannel s0) (rooms s0)).
  set (w1 := snd (set_data_user sid user w)).
  assert (Hs1 : find_socket sid w1 = Some (f s)).
  { unfold find_socket, w1, set_data_user. simpl.
    rewrite find_modify_same by reflexivity.
    unfold find_socket in Hs. now rewrite Hs. }
  destruct (join_rooms_block_keeps sid channelId
              (snd (join_presence_block sid userId w1))) as (U3 & _).
  rewrite U3.
  change (snd (join_presence_block sid userId w1))
    with (exec (join_presence_block sid userId) w1).
  rewrite (join_presence_users sid userId w1 (f s) Hs1 Hd). reflexivity.
Qed.

Lemma Forall_modify (P : Socket -> Prop) (sid : string) (f : Socket -> Socket)
      (ss : list Socket) :
  Forall P ss ->
  (forall x, In x ss -> id x = sid -> P (f x)) ->
  Forall P (modify_socket sid f ss).
Proof.
  intros HP Hf. unfold modify_socket. rewrite Forall_forall in *.
  intros y Hy. apply in_map_iff in Hy as [x [<- Hx]].
  destruct (String.eqb_spec (id x) sid); auto.
Qed.

Lemma find_unique (sid : string) (ss : list Socket) (s x : Socket) :
  NoDup (map id ss) ->
  find (fun s => String.eqb (id s) sid) ss = Some s ->
  In x ss -> id x = sid -> x = s.
Proof.
  intros Hnd Hs Hx Hid. apply find_some_id in Hs as [Hsid Hin].
  apply (NoDup_map_inj id ss); auto. congruence.
Qed.

Lemma attached_data_userId (s : Socket) (u : string) :
  attached_userId s = Some u -> data_userId s = Some u.
Proof.
  unfold attached_userId. destruct (data_userId s) as [x|]; [|discriminate].
  destruct (negb (String.eqb x "")); [|discriminate]. simpl. congruence.
Qed.

Lemma differs_false (a : option string) (b : string) :
  differs a b = false -> a = Some b.
Proof.
  destruct a as [a|]; simpl; [|discriminate].
  intros H. apply negb_false_iff, String.eqb_eq in H. congruence.
Qed.

Lemma profile_ok_join (w : World) (sid : string) (userId channelId : value) :
  Inv w -> Forall profile_ok (sockets w) ->
  Forall profile_ok (sockets (step w (Join sid userId channelId))).
Proof.
  intros Hinv Hok.
  destruct (find_socket sid w) as [s|] eqn:Hs;
    [| now rewrite step_join_dead].
  destruct (JSONDB.findOne [("_id", userId)] (db_users w)) as [user|] eqn:Hu;
    [| now rewrite step_join_unknown].
  rewrite (step_join_sockets w sid userId channelId s user Hs Hu).
  apply Forall_modify; auto.
  intros x Hx Hid.
  assert (x = s) by (apply (find_unique sid (sockets w)); auto; apply Hinv).
  subst x. intros r. unfold joined. cbn [data_user data_userId]. intros [= <-].
  unfold user_key. rewrite (findOne_id _ _ _ Hu).
  destruct (differs (attached_userId s) (String_ userId)) eqn:Hd; auto.
  apply differs_false in Hd. now apply attached_data_userId.
Qed.

Lemma profile_ok_step (w : World) (e : event) :
  Inv w -> Forall profile_ok (sockets w) -> Forall profile_ok (sockets (step w e)).
Proof.
  intros Hinv Hok. destruct e as [sid|sid u c|sid m|sid m t|sid| |us ms].
  - destruct (find_socket sid w) as [s|] eqn:Hs.
    + now rewrite (step_connect_live w sid s Hs).
    + destruct (step_connect_fresh w sid Hs) as (S' & _). rewrite S'.
      apply Forall_app. split; auto. constructor; [|constructor].
      intros r; discriminate.
  - now apply profile_ok_join.
  - destruct (step_message w (DeleteMessage sid m) sid m) as (S' & _);
      [now left|]. now rewrite S'.
  - destruct (step_message w (EditMessage sid m t) sid m) as (S' & _);
      [right; now exists t|]. now rewrite S'.
  - destruct (find_socket sid w) as [s|] eqn:Hs;
      [| now rewrite step_disconnect_dead].
    destruct (step_disconnect_live w sid s Hs) as (S' & _). rewrite S'.
    unfold remove_socket. rewrite Forall_forall in *.
    intros x Hx. apply filter_In in Hx as [Hx _]. auto.
  - destruct (step_grace w) as (S' & _). now rewrite S'.
  - exact Hok.
Qed.

Lemma profile_ok_run (w : World) (evs : list event) :
  Inv w -> Forall profile_ok (sockets w) -> Forall profile_ok (sockets (run w evs)).
Proof.
  revert w. induction evs as [|e evs IH]; intros w Hinv Hok; simpl; auto.
  apply IH; auto using Inv_step, profile_ok_step.
Qed.

(** The profile and the user id of a connection are set in one synchronous
    stretch of the [join] handler, so they agree in every world of a run. *)
Lemma profile_ok_reachable (users messages : JSONDB.t) (evs : list event) :
  Forall profile_ok (sockets (reachable_from users messages evs)).
Proof. apply profile_ok_run; [apply Inv_init | constructor]. Qed.

Lemma appears_positive (w : World) (u : string) :
  NoDup (JSMap.keys (presenceCounts w)) ->
  appears u (online_list w) -> count_of w u > 0.
Proof.
  intros Hnd (p & Hin & Hid). apply online_list_spec in Hin
    as (k & c & r' & Hin & Hc & Hr' & ->).
  rewrite get_field_omit_other in Hid by discriminate.
  rewrite (findOne_id _ _ _ Hr') in Hid. injection Hid as ->.
  unfold count_of. rewrite or_zero_get, (JSMapFacts.in_get u c _ Hnd Hin). lia.
Qed.

(** X12. Every user in a membership list is online.  Take any world in which
    the presence table agrees with the connections ([Inv]) and any list of
    live connections whose profile and user id agree ([profile_ok]), in any
    order: an entry of the list [getUniqueUsers] computes from them belongs
    to one of these connections, attached to that user, so (the id being
    non-empty) the user's presence count is at least 1 and, if the store
    still has the record, the user is in the online list. *)
Theorem room_members_are_online (w : World) (ss : list Socket) (p : obj) :
  Inv w ->
  (forall s, In s ss -> In s (sockets w) /\ profile_ok s) ->
  In p (getUniqueUsers ss) ->
  user_key p <> "" ->
  (exists s, In s ss /\ data_user s = Some p /\
             attached_userId s = Some (user_key p)) /\
  1 <= count_of w (user_key p) /\
  (forall r, JSONDB.findOne [("_id", VStr (user_key p))] (db_users w) = Some r ->
             appears (user_key p) (online_list w)).
Proof.
  intros Hinv Hok Hin Hkey.
  rewrite getUniqueUsers_eq in Hin.
  apply unique_kept_in in Hin. unfold attached_profiles in Hin.
  apply in_filter_Boolean, in_map_iff in Hin as [s [Hp Hs]].
  destruct (Hok s Hs) as [Hlive Hprof].
  assert (Hatt : attached_userId s = Some (user_key p)).
  { unfold attached_userId. rewrite (Hprof p Hp).
    destruct (String.eqb_spec (user_key p) ""); [contradiction | reflexivity]. }
  assert (Hcount : 1 <= count_of w (user_key p)).
  { rewrite (inv_count _ Hinv _ Hkey). apply (count_pos _ _ s Hlive).
    rewrite (attached_to_some _ s _ Hatt). apply String.eqb_refl. }
  split; [exists s; auto|]. split; auto.
  intros r Hr. apply (online_appears w _ r); auto; [apply (inv_table _ Hinv) | lia].
Qed.

Lemma room_members_are_online_witness :
  let w := reachable_from [u_ann; u_bob] []
             [Connect "s1"; Join "s1" (VStr "u1") (VStr "general");
              Connect "s2"; Join "s2" (VStr "u2") (VStr "general")] in
  let ss := rev (sockets w) in
  (exists s, In s ss /\ data_user s = Some u_ann /\
             attached_userId s = Some (user_key u_ann)) /\
  1 <= count_of w (user_key u_ann) /\
  (forall r, JSONDB.findOne [("_id", VStr (user_key u_ann))] (db_users w) = Some r ->
             appears (user_key u_ann) (online_list w)).
Proof.
  intros w ss.
  apply (room_members_are_online w ss u_ann).
  - apply Inv_reachable.
  - intros s Hs. apply in_rev in Hs. split; auto.
    pose proof (profile_ok_reachable [u_ann; u_bob] []
             [Connect "s1"; Join "s1" (VStr "u1") (VStr "general");
              Connect "s2"; Join "s2" (VStr "u2") (VStr "general")]) as H.
    rewrite Forall_forall in H. now apply H.
  - vm_compute. right. now left.
  - discriminate.
Defined.

(* ===================================================================== *)
(** ** The online list and the stored status                              *)
(* ===================================================================== *)

Lemma online_ids_from_keys (users : JSONDB.t) (E : list (string * Z)) (v : value) :
  In v (map (fun p => get_field p "_id")
          (filter_Boolean
             (map (fun userId =>
                     match JSONDB.findOne [("_id", VStr userId)] users with
                     | None => None
                     | Some user => Some (omit "password" user)
                     end)
                  (map (fun e => String_ (VStr (fst e)))
                       (filter (fun e => snd e >? 0) E))))) ->
  exists k, In k (map fst E) /\ v = VStr k.
Proof.
  induction E as [|[k c] E IH]; simpl; [tauto|].
  destruct (c >? 0); simpl.
  - destruct (JSONDB.findOne [("_id", VStr k)] users) as [r|] eqn:Hr; simpl.
    + intros [H|H].
      * exists k. split; auto. rewrite <- H.
        rewrite get_field_omit_other by discriminate.
        now rewrite (findOne_id _ _ _ Hr).
      * destruct (IH H) as [k' [Hk' ->]]. eauto.
    + intros H. destruct (IH H) as [k' [Hk' ->]]. eauto.
  - intros H. destruct (IH H) as [k' [Hk' ->]]. eauto.
Qed.

Lemma online_ids_NoDup (users : JSONDB.t) (E : list (string * Z)) :
  NoDup (map fst E) ->
  NoDup (map (fun p => get_field p "_id")
          (filter_Boolean
             (map (fun userId =>
                     match JSONDB.findOne [("_id", VStr userId)] users with
                     | None => None
                     | Some user => Some (omit "password" user)
                     end)
                  (map (fun e => String_ (VStr (fst e)))
                       (filter (fun e => snd e >? 0) E))))).
Proof.
  induction E as [|[k c] E IH]; simpl; [constructor|].
  intros Hnd. inversion Hnd as [|? ? Hnot Hnd']; subst.
  destruct (c >? 0); simpl; auto.
  destruct (JSONDB.findOne [("_id", VStr k)] users) as [r|] eqn:Hr; simpl; auto.
  constructor; auto.
  intros Hin. apply online_ids_from_keys in Hin as [k' [Hk' E']].
  rewrite get_field_omit_other in E' by discriminate.
  rewrite (findOne_id _ _ _ Hr) in E'. injection E' as ->. contradiction.
Qed.

(** X13. The online list of a reachable world never lists a user twice, and
    each of its entries is the public copy of a stored record whose user has
    a presence count of at least 1. *)
Theorem online_list_has_no_duplicates
        (users messages : JSONDB.t) (evs : list event) :
  let w := reachable_from users messages evs in
  NoDup (map (fun p => get_field p "_id") (online_list w)) /\
  (forall p, In p (online_list w) ->
     exists u r, get_field p "_id" = VStr u /\ 1 <= count_of w u /\
                 JSONDB.findOne [("_id", VStr u)] (db_users w) = Some r /\
                 public_copy r p).
Proof.
  intros w. pose proof (Inv_reachable users messages evs) as Hinv. fold w in Hinv.
  destruct (inv_table _ Hinv) as [Hnd Hv]. split.
  - unfold online_list, getOnlineUsersPublic. cbn [fst].
    now apply online_ids_NoDup.
  - intros p Hin. apply online_list_spec in Hin as (k & c & r & Hin & Hc & Hr & ->).
    exists k, r. split; [|split; [|split]]; auto.
    + rewrite get_field_omit_other by discriminate. now apply (findOne_id _ _ _ Hr).
    + unfold count_of. rewrite or_zero_get, (JSMapFacts.in_get k c _ Hnd Hin). lia.
    + apply omit_public_copy.
Qed.

Lemma status_written (u : string) (st : string) (data : JSONDB.t) (r : obj) :
  JSONDB.findOne [("_id", VStr u)] data = Some r ->
  exists r',
    JSONDB.findOne [("_id", VStr u)]
      (JSONDB.update (VStr u) [("status", VStr st)] data) = Some r' /\
    get_field r' "status" = VStr st.
Proof.
  intros Hr. exists (spread r [("status", VStr st)]). split.
  - now apply update_findOne_same.
  - rewrite get_field_spread. reflexivity.
Qed.

(** X14. A connection with no attached user joins as a stored user [u]: the
    user's count goes up by 1 and the user is in the online list afterwards.
    If it is the user's first connection, the stored record has status
    [online] afterwards; if the user already had one, the user file is not
    written at all. *)
Theorem first_join_writes_online
        (users messages : JSONDB.t) (evs : list event)
        (sid : string) (s : Socket) (u : string) (channelId : value) (r : obj) :
  let w := reachable_from users messages evs in
  find_socket sid w = Some s ->
  attached_userId s = None ->
  JSONDB.findOne [("_id", VStr u)] (db_users w) = Some r ->
  let w' := step w (Join sid (VStr u) channelId) in
  count_of w' u = count_of w u + 1 /\
  appears u (online_list w') /\
  (count_of w u = 0 ->
   exists r', JSONDB.findOne [("_id", VStr u)] (db_users w') = Some r' /\
              get_field r' "status" = VStr "online") /\
  (1 <= count_of w u -> db_users w' = db_users w).
Proof.
  intros w Hs Ha Hr w'.
  pose proof (Inv_reachable users messages evs) as Hinv. fold w in Hinv.
  pose proof (Inv_step w (Join sid (VStr u) channelId) Hinv) as Hinv'. fold w' in Hinv'.
  pose proof (step_join_found w sid (VStr u) channelId s r Hs Hr) as H.
  cbv zeta in H. fold w' in H. destruct H as (_ & _ & H).
  assert (Hd : differs (attached_userId s) (String_ (VStr u)) = true)
    by (now rewrite Ha).
  rewrite Hd in H. destruct H as (P' & _).
  pose proof (step_join_users w sid (VStr u) channelId s r Hs Hr Hd) as U'.
  fold w' in U'. rewrite Ha in P', U'. cbv zeta in U'. cbn [String_] in P', U'.
  fold (count_of w u) in U'.
  pose proof (table_ok_count_nonneg _ u (inv_table _ Hinv)) as Hpos.
  fold (count_of w u) in Hpos.
  assert (Hcount : count_of w' u = count_of w u + 1).
  { unfold count_of. rewrite P'. apply count_attach_same. }
  assert (Hfirst : count_of w u = 0 ->
                   exists r', JSONDB.findOne [("_id", VStr u)] (db_users w') = Some r' /\
                              get_field r' "status" = VStr "online").
  { intros H0. rewrite H0 in U'. change (0 + 1 =? 1) with true in U'. cbv iota in U'.
    rewrite U'. now apply (status_written u "online" _ r). }
  assert (Hlater : 1 <= count_of w u -> db_users w' = db_users w).
  { intros H1. destruct (Z.eqb_spec (count_of w u + 1) 1); [lia | exact U']. }
  split; [exact Hcount|]. split; [|split; assumption].
  assert (Hrec : exists r', JSONDB.findOne [("_id", VStr u)] (db_users w') = Some r').
  { destruct (Z.eq_dec (count_of w u) 0) as [H0|H0].
    - destruct (Hfirst H0) as [r' [Hr' _]]. eauto.
    - rewrite Hlater by lia. eauto. }
  destruct Hrec as [r' Hr'].
  apply (online_appears w' u r'); auto; [apply (inv_table _ Hinv') | lia].
Qed.

Lemma first_join_writes_online_witness :
  let w := reachable_from [u_ann; u_bob] [] [Connect "s1"] in
  let w' := step w (Join "s1" (VStr "u1") (VStr "general")) in
  count_of w' "u1" = count_of w "u1" + 1 /\
  appears "u1" (online_list w') /\
  (count_of w "u1" = 0 ->
   exists r', JSONDB.findOne [("_id", VStr "u1")] (db_users w') = Some r' /\
              get_field r' "status" = VStr "online") /\
  (1 <= count_of w "u1" -> db_users w' = db_users w).
Proof.
  intros w w'.
  apply (first_join_writes_online [u_ann; u_bob] [] [Connect "s1"] "s1"
           (new_socket "s1") "u1" (VStr "general") u_ann); reflexivity.
Defined.

(** X15. A connection attached to user [u] disconnects: the user's count
    goes down by 1.  If it was the user's last connection, the stored record
    (if any) has status [offline] afterwards and the user is no longer in
    the online list; if the user has other connections, the user file is not
    written at all. *)
Theorem last_disconnect_writes_offline
        (users messages : JSONDB.t) (evs : list event)
        (sid : string) (s : Socket) (u : string) :
  let w := reachable_from users messages evs in
  find_socket sid w = Some s ->
  attached_userId s = Some u ->
  let w' := step w (Disconnect sid) in
  count_of w' u = count_of w u - 1 /\
  (count_of w u = 1 ->
   ~ appears u (online_list w') /\
   forall r, JSONDB.findOne [("_id", VStr u)] (db_users w) = Some r ->
     exists r', JSONDB.findOne [("_id", VStr u)] (db_users w') = Some r' /\
                get_field r' "status" = VStr "offline") /\
  (1 < count_of w u -> db_users w' = db_users w).
Proof.
  intros w Hs Ha w'.
  pose proof (Inv_reachable users messages evs) as Hinv. fold w in Hinv.
  pose proof (Inv_step w (Disconnect sid) Hinv) as Hinv'. fold w' in Hinv'.
  pose proof (attached_has_count w sid s u Hinv Hs Ha) as Hpos.
  destruct (step_disconnect_live w sid s Hs) as (_ & _ & _ & H).
  fold w' in H. rewrite Ha in H. destruct H as (P' & U' & _).
  fold (count_of w u) in U'.
  assert (Hcount : count_of w' u = count_of w u - 1).
  { unfold count_of in *. rewrite P', count_detach_same. lia. }
  split; [exact Hcount|]. split.
  - intros H1. split.
    + intros Happ. apply appears_positive in Happ; [lia | apply (inv_table _ Hinv')].
    + intros r Hr. rewrite U', H1. change (1 - 1 <=? 0) with true. cbv iota.
      now apply (status_written u "offline" _ r).
  - intros H2. rewrite U'. destruct (Z.leb_spec (count_of w u - 1) 0); [lia | reflexivity].
Qed.

Lemma last_disconnect_writes_offline_witness :
  let w := reachable_from [u_ann; u_bob] []
             [Connect "s1"; Join "s1" (VStr "u1") (VStr "general")] in
  let w' := step w (Disconnect "s1") in
  count_of w' "u1" = count_of w "u1" - 1 /\
  (count_of w "u1" = 1 ->
   ~ appears "u1" (online_list w') /\
   forall r, JSONDB.findOne [("_id", VStr "u1")] (db_users w) = Some r ->
     exists r', JSONDB.findOne [("_id", VStr "u1")] (db_users w') = Some r' /\
                get_field r' "status" = VStr "offline") /\
  (1 < count_of w "u1" -> db_users w' = db_users w).
Proof.
  intros w w'.
  apply (last_disconnect_writes_offline [u_ann; u_bob] []
           [Connect "s1"; Join "s1" (VStr "u1") (VStr "general")] "s1"
           (mkSocket "s1" (Some u_ann) (Some "u1") (VStr "general")
                     [VStr "s1"; VStr "general"])
           "u1"); reflexivity.
Defined.

(* ===================================================================== *)
(** ** The auth controller                                                *)
(* ===================================================================== *)

Section AuthFacts.

Variable bcrypt_hash : value -> option string.
Variable bcrypt_compare : value -> value -> option bool.
Variable jwt_sign : value -> string.

(** X17. [login] answers 200 exactly when a user with that name is stored
    and [bcrypt.compare] accepts the password against the stored hash; the
    body is then the public copy of the record (no [password]) and the token
    signed for the record's id.  All its 401 answers are the same response,
    whether the user is unknown or the password is wrong. *)
Theorem login_outcomes (username password : value) (users : JSONDB.t) :
  let res := login bcrypt_compare jwt_sign username password users in
  (status res = 200 <->
   exists user, JSONDB.findOne [("username", username)] users = Some user /\
                bcrypt_compare password (get_field user "password") = Some true) /\
  (status res = 200 ->
   exists user p,
     JSONDB.findOne [("username", username)] users = Some user /\
     json res = JUserToken p (jwt_sign (get_field user "_id")) /\
     public_copy user p) /\
  (forall username' password' users',
     status res = 401 ->
     status (login bcrypt_compare jwt_sign username' password' users') = 401 ->
     login bcrypt_compare jwt_sign username' password' users' = res).
Proof.
  intros res. subst res. unfold login.
  destruct (JSONDB.findOne [("username", username)] users) as [user|] eqn:Hu.
  - destruct (bcrypt_compare password (get_field user "password")) as [[|]|] eqn:Hc;
      cbn [negb status json res_json].
    + split; [split; [eauto | reflexivity]|]. split.
      * intros _. exists user, (omit "password" user).
        repeat split; auto using has_key_omit.
        intros k Hk. apply get_field_omit_other. congruence.
      * discriminate.
    + split; [split; [discriminate | intros [u [[= <-] H]]; congruence]|].
      split; [discriminate|].
      intros username' password' users' _.
      destruct (JSONDB.findOne [("username", username')] users') as [user'|]; auto.
      destruct (bcrypt_compare password' (get_field user' "password")) as [[|]|];
        cbn [negb status res_json]; auto; discriminate.
    + split; [split; [discriminate | intros [u [[= <-] H]]; congruence]|].
      split; discriminate.
  - cbn [status]. split; [split; [discriminate | intros [u [H _]]; discriminate]|].
    split; [discriminate|].
    intros username' password' users' _.
    destruct (JSONDB.findOne [("username", username')] users') as [user'|]; auto.
    destruct (bcrypt_compare password' (get_field user' "password")) as [[|]|];
      cbn [negb status res_json]; auto; discriminate.
Qed.

(** X18. [register] creates a record exactly when it answers 200, which it
    does exactly when the name and the password are truthy, no stored user
    has the name and [bcrypt.hash] returns.  The record then holds the hash
    as its [password], never the submitted value, with the submitted name,
    the drawn uuid and status [online]; the body is its public copy with the
    token signed for the uuid. *)
Theorem register_outcomes
        (username email password : value) (uuid : string) (now : value)
        (users : JSONDB.t) :
  let res := fst (register bcrypt_hash jwt_sign username email password uuid now users) in
  let created := snd (register bcrypt_hash jwt_sign username email password uuid now users) in
  (status res = 200 <->
   truthy username = true /\ truthy password = true /\
   JSONDB.findOne [("username", username)] users = None /\
   exists h, bcrypt_hash password = Some h) /\
  (status res <> 200 -> created = None) /\
  (status res = 200 ->
   exists h newUser p,
     bcrypt_hash password = Some h /\
     created = Some newUser /\
     get_field newUser "password" = VStr h /\
     get_field newUser "username" = username /\
     get_field newUser "_id" = VStr uuid /\
     get_field newUser "status" = VStr "online" /\
     json res = JUserToken p (jwt_sign (VStr uuid)) /\
     public_copy newUser p).
Proof.
  intros res created. subst res created. unfold register.
  destruct (truthy username) eqn:Tu; cbn [negb orb].
  2:{ cbn [fst snd status]. split; [split; [discriminate | intros (H & _); discriminate]|].
      split; [reflexivity | discriminate]. }
  destruct (truthy password) eqn:Tp; cbn [negb orb].
  2:{ cbn [fst snd status]. split; [split; [discriminate | intros (_ & H & _); discriminate]|].
      split; [reflexivity | discriminate]. }
  destruct (JSONDB.findOne [("username", username)] users) as [existing|] eqn:Hu.
  { cbn [fst snd status]. split; [split; [discriminate | intros (_ & _ & H & _); discriminate]|].
    split; [reflexivity | discriminate]. }
  destruct (bcrypt_hash password) as [h|] eqn:Hh.
  2:{ cbn [fst snd status].
      split; [split; [discriminate | intros (_ & _ & _ & [h H]); discriminate]|].
      split; [reflexivity | discriminate]. }
  cbn [fst snd status res_json json].
  split; [split; [intros _; repeat split; eauto | reflexivity]|].
  split; [intros H; now contradiction H|].
  intros _. eexists h, _, _. split; [reflexivity|].
  split; [reflexivity|]. split; [reflexivity|]. split; [reflexivity|].
  split; [reflexivity|]. split; [reflexivity|]. split; [reflexivity|].
  apply omit_public_copy.
Qed.

End AuthFacts.

Lemma has_key_app (a b : obj) (k : string) :
  has_key (a ++ b)%list k = has_key a k || has_key b k.
Proof. unfold has_key. apply existsb_app. Qed.

Lemma profile_updates_keys (username color isDiamond avatar : value) (k : string) :
  ~ In k profile_fields ->
  has_key (profile_updates username color isDiamond avatar) k = false.
Proof.
  intros Hk. unfold profile_fields in Hk. simpl in Hk.
  assert (H1 : String.eqb "username" k = false) by (apply String.eqb_neq; tauto).
  assert (H2 : String.eqb "color" k = false) by (apply String.eqb_neq; tauto).
  assert (H3 : String.eqb "isDiamond" k = false) by (apply String.eqb_neq; tauto).
  assert (H4 : String.eqb "avatar" k = false) by (apply String.eqb_neq; tauto).
  unfold profile_updates. rewrite !has_key_app.
  destruct (truthy username), (truthy color),
    (negb (strict_eq isDiamond VUndef)), (truthy avatar);
    unfold has_key; cbn [existsb fst]; rewrite ?H1, ?H2, ?H3, ?H4; reflexivity.
Qed.

(** X19. [updateProfile] can write the four profile properties and nothing
    else: every other property ([_id], [password], [email], [status], ...) of
    every record is what it was, and the file keeps its length.  It answers
    404, writing nothing, exactly when no record has the requester's id;
    otherwise it answers 200 with the public copy of the updated record. *)
Theorem update_profile_outcomes
        (username color isDiamond avatar userId : value) (users : JSONDB.t) :
  let res := fst (updateProfile username color isDiamond avatar userId users) in
  let users' := snd (updateProfile username color isDiamond avatar userId users) in
  length users' = length users /\
  (forall k, ~ In k profile_fields -> column k users' = column k users) /\
  (status res = 404 <-> JSONDB.findOne [("_id", userId)] users = None) /\
  (status res = 404 -> users' = users) /\
  (status res <> 404 ->
   exists r p,
     JSONDB.findOne [("_id", userId)] users = Some r /\
     res = mkResponse 200 (JObject p) /\
     JSONDB.findOne [("_id", userId)] users' = Some
       (spread r (profile_updates username color isDiamond avatar)) /\
     public_copy (spread r (profile_updates username color isDiamond avatar)) p).
Proof.
  intros res users'. subst res users'. unfold updateProfile.
  rewrite update_result_spec.
  destruct (JSONDB.findOne [("_id", userId)] users) as [r|] eqn:Hr;
    cbn [option_map fst snd status res_json].
  - split; [apply update_length|].
    split; [intros k Hk; now apply update_column, profile_updates_keys|].
    split; [split; discriminate|]. split; [discriminate|].
    intros _. exists r, (omit "password" (spread r (profile_updates username color isDiamond avatar))).
    split; [reflexivity|]. split; [reflexivity|]. split.
    + apply update_findOne_same; auto.
      apply profile_updates_keys. unfold profile_fields. simpl.
      intros [H|[H|[H|[H|[]]]]]; discriminate.
    + apply omit_public_copy.
  - split; [reflexivity|]. split; [reflexivity|].
    split; [split; reflexivity|]. split; [reflexivity|].
    intros H. now contradiction H.
Qed.

(* ===================================================================== *)
(** ** The presence table against the tracker of the specification        *)
(* ===================================================================== *)
























